(** * Document question-answering service: vector index and request orchestration

    A shallow embedding of [src/vector_db/faiss_manager.py] (the [FAISSManager]
    singleton wrapping a flat L2 index) and of the request handler
    [run_hackrx_submission] of [main.py], followed by the properties of the
    specification that can be stated about them.

    Conventions.
    - A Python [str] is a [string]; a character is a code point below 256.
    - A Python exception is a value of [exn]; a call that may raise returns
      [result A]; a method that mutates [self] returns the new state next to
      its result, and the state it returns on an exception is the state the
      mutations made so far have produced (Python does not roll back).
    - The flat index of the [faiss] package, the embedding model, the text
      splitter, the document loader and the answer generator are collaborators
      of the code under study: they appear as the operations of type classes,
      with the contract the code relies on stated as a proposition. *)

From Stdlib Require Import ZArith Lia String Ascii.
From stdpp Require Import base option list strings gmap sorting.

Local Open Scope Z_scope.

(** ** Python strings *)

Module Py.

(** [c.lower()] on one character: the letters A-Z move to a-z.  Characters
    outside ASCII never lower onto an ASCII letter of the words compared
    here, so they are left in place. *)
Definition lower_char (c : ascii) : ascii :=
  let n := nat_of_ascii c in
  if ((65 <=? n)%nat && (n <=? 90)%nat)%bool then ascii_of_nat (n + 32) else c.

(** [s.lower()] *)
Fixpoint lower (s : string) : string :=
  match s with
  | EmptyString => EmptyString
  | String c s' => String (lower_char c) (lower s')
  end.

(** [s.split(sep)] with a one-character separator: a string with [n]
    occurrences of [sep] yields [n + 1] fields, empty fields included. *)
Fixpoint split (sep : ascii) (s : string) : list string :=
  match s with
  | EmptyString => [EmptyString]
  | String c s' =>
      if Ascii.eqb c sep then EmptyString :: split sep s'
      else match split sep s' with
           | w :: ws => String c w :: ws
           | [] => [String c EmptyString]
           end
  end.

(** [c.isspace()] for a code point below 256. *)
Definition isspace (c : ascii) : bool :=
  let n := nat_of_ascii c in
  (((9 <=? n)%nat && (n <=? 13)%nat) || ((28 <=? n)%nat && (n <=? 32)%nat)
   || (n =? 133)%nat || (n =? 160)%nat)%bool.

Fixpoint lstrip_chars (l : list ascii) : list ascii :=
  match l with
  | c :: l' => if isspace c then lstrip_chars l' else l
  | [] => []
  end.

(** [s.strip()] *)
Definition strip (s : string) : string :=
  string_of_list_ascii
    (rev (lstrip_chars (rev (lstrip_chars (list_ascii_of_string s))))).

(** Truth value of a string: [bool(s)]. *)
Definition truthy (s : string) : bool :=
  match s with EmptyString => false | _ => true end.

(** [l[i]] for a Python list and a possibly negative index; [None] stands
    for [IndexError]. *)
Definition index {A} (l : list A) (i : Z) : option A :=
  if 0 <=? i then l !! Z.to_nat i
  else if - Z.of_nat (length l) <=? i then l !! Z.to_nat (Z.of_nat (length l) + i)
  else None.

(** [s.startswith(p)] *)
Fixpoint prefix (p s : string) : bool :=
  match p, s with
  | EmptyString, _ => true
  | String a p', String b s' => Ascii.eqb a b && prefix p' s'
  | String _ _, EmptyString => false
  end.

(** [sub in s] *)
Fixpoint contains (sub s : string) : bool :=
  prefix sub s
  || match s with
     | EmptyString => false
     | String _ s' => contains sub s'
     end.

(** [sep.join(l)] *)
Fixpoint join (sep : string) (l : list string) : string :=
  match l with
  | [] => EmptyString
  | [x] => x
  | x :: rest => x +:+ sep +:+ join sep rest
  end.

(** The one-character string ["\n"]. *)
Definition NL : string := String (ascii_of_nat 10) EmptyString.

End Py.

(** ** Exceptions and results *)

(** [LibraryError] stands for what [numpy] or [faiss] raises on an array of
    the wrong shape; [RuntimeError] for what a collaborator raises. *)
Inductive exn : Type :=
| HTTPException (status_code : Z) (detail : string)
| ValueError (msg : string)
| IndexError
| LibraryError (msg : string)
| RuntimeError (msg : string).

Inductive result (A : Type) : Type :=
| Ok (a : A)
| Raise (e : exn).
Arguments Ok {A} a.
Arguments Raise {A} e.

Definition is_raise {A} (r : result A) : Prop :=
  match r with Raise _ => True | Ok _ => False end.

Definition HTTP_200_OK : Z := 200.
Definition HTTP_400_BAD_REQUEST : Z := 400.
Definition HTTP_401_UNAUTHORIZED : Z := 401.
Definition HTTP_500_INTERNAL_SERVER_ERROR : Z := 500.

(** Status line of the response the framework sends for an endpoint outcome:
    an [HTTPException] carries its own code, any other exception is an
    internal server error. *)
Definition response_status {A} (r : result A) : Z :=
  match r with
  | Ok _ => HTTP_200_OK
  | Raise (HTTPException c _) => c
  | Raise _ => HTTP_500_INTERNAL_SERVER_ERROR
  end.

(** ** The flat L2 index (collaborator) *)

(** Scalars of an embedding, the distances the index reports, how they are
    compared, and the squared L2 distance the index computes between a query
    and a stored row. *)
Class Metric : Type := {
  scalar : Type;
  dist : Type;
  dist_le : dist → dist → Prop;
  L2sqr : list scalar → list scalar → dist;
}.

(** The search kernel of the index: from the stored rows, a query row and [k]
    to the pair [(distances[0], indices[0])], or [None] when the library
    raises. *)
Abbreviation vector := (list scalar).

Class FlatIndex `{Metric} : Type := {
  knn_search : list vector → vector → Z → option (list dist * list Z);
}.

Section Index.
Context `{FI : FlatIndex}.

(** [faiss.IndexFlatL2(dimension)]: the rows in insertion order; the label
    of a row is its position. *)
Record IndexFlatL2 : Type := {
  d : nat;
  xb : list vector;
}.

Definition ntotal (ix : IndexFlatL2) : nat := length (xb ix).

(** [index.add(np.array(embeddings).astype('float32'))]: every row must
    have the dimension of the index. *)
Definition index_add (ix : IndexFlatL2) (embeddings : list vector) : result IndexFlatL2 :=
  if forallb (λ v, (length v =? d ix)%nat) embeddings
  then Ok {| d := d ix; xb := xb ix ++ embeddings |}
  else Raise (LibraryError "embedding dimension does not match the index").

(** [index.search(np.array([query]).astype('float32'), k)] *)
Definition index_search (ix : IndexFlatL2) (query : vector) (k : Z)
  : result (list dist * list Z) :=
  match knn_search (xb ix) query k with
  | Some r => Ok r
  | None => Raise (LibraryError "index search failed")
  end.

(** [index.reset()] *)
Definition index_reset (ix : IndexFlatL2) : IndexFlatL2 :=
  {| d := d ix; xb := [] |}.

(** The distance the index reports for the row labelled [l]. *)
Definition dist_to (rows : list vector) (query : vector) (l : nat) : option dist :=
  L2sqr query <$> rows !! l.

(** What the code relies on from [IndexFlatL2.search] for a query of the
    index's dimension and [k >= 1]: two rows of length [k]; the labels of
    [min k ntotal] distinct stored rows first, then [-1] padding; next to
    each label the squared L2 distance of that row; distances in
    non-decreasing order; no row left out is nearer than a row returned.
    Nothing is promised about the order of rows at equal distance. *)
Definition knn_contract : Prop :=
  ∀ (rows : list vector) (query : vector) (k : Z),
    0 < k →
    Forall (λ v, length v = length query) rows →
    ∃ (labels : list nat) (ds pad : list dist),
      knn_search rows query k
        = Some (ds ++ pad,
                (Z.of_nat <$> labels) ++ replicate (length pad) (-1))
      ∧ length labels = Nat.min (Z.to_nat k) (length rows)
      ∧ (length labels + length pad)%nat = Z.to_nat k
      ∧ NoDup labels
      ∧ Forall2 (λ l dl, dist_to rows query l = Some dl) labels ds
      ∧ StronglySorted dist_le ds
      ∧ (∀ j dj, dist_to rows query j = Some dj → j ∉ labels →
                 Forall (λ dl, dist_le dl dj) ds).



End Index.

(** ** [FAISSManager] (src/vector_db/faiss_manager.py) *)

(** A metadata value ([Any] in the source: a source name, a page number). *)
Inductive meta_value : Type :=
| MetaStr (s : string)
| MetaInt (n : Z).

Abbreviation metadata_dict := (gmap string meta_value).

Section Manager.
Context `{FI : FlatIndex}.

(** The singleton's attributes. *)
Record FAISSManager : Type := {
  _index : IndexFlatL2;
  _texts : list string;
  _metadatas : list metadata_dict;
}.

(** One entry of the list [search] returns: the dictionary with the keys
    ["text"], ["metadata"] and ["distance"]. *)
Record SearchResult : Type := {
  text : string;
  metadata : metadata_dict;
  distance : dist;
}.

(** [FAISSManager(dimension)], first construction. *)
Definition new (dimension : nat) : FAISSManager :=
  {| _index := {| d := dimension; xb := [] |}; _texts := []; _metadatas := [] |}.

(** [add_documents(self, embeddings, texts, metadatas=None)], lines 26-55.
    The index and [_texts] are extended before the metadata are looked
    at. *)
Definition add_documents (self : FAISSManager) (embeddings : list vector)
    (texts : list string) (metadatas : option (list metadata_dict))
  : result unit * FAISSManager :=
  if (bool_decide (embeddings = [] ∨ texts = [])) then (Ok tt, self)
  else if negb (length embeddings =? length texts)%nat then
    (Raise (ValueError "Number of embeddings and texts must match."), self)
  else
    match index_add (_index self) embeddings with
    | Raise e => (Raise e, self)
    | Ok ix =>
        let texts' := _texts self ++ texts in
        match metadatas with
        | Some (m :: ms) =>
            if negb (length (m :: ms) =? length texts)%nat then
              (Raise (ValueError "Number of metadatas and texts must match if provided."),
               {| _index := ix; _texts := texts'; _metadatas := _metadatas self |})
            else
              (Ok tt,
               {| _index := ix; _texts := texts';
                  _metadatas := _metadatas self ++ (m :: ms) |})
        | _ =>
            (Ok tt,
             {| _index := ix; _texts := texts';
                _metadatas := _metadatas self ++ ((λ _, ∅) <$> texts) |})
        end
    end.

(** The loop of [search], lines 82-95: [i] is the position in
    [indices[0]], [idx] the label found there. *)
Fixpoint collect_results (self : FAISSManager) (distances : list dist)
    (i : nat) (indices : list Z) : result (list SearchResult) :=
  match indices with
  | [] => Ok []
  | idx :: rest =>
      if idx =? -1 then collect_results self distances (S i) rest
      else
        match Py.index (_texts self) idx with
        | None => Raise IndexError
        | Some text_ =>
            match (if idx <? Z.of_nat (length (_metadatas self))
                   then Py.index (_metadatas self) idx else Some ∅) with
            | None => Raise IndexError
            | Some metadata_ =>
                match distances !! i with
                | None => Raise IndexError
                | Some dist_ =>
                    match collect_results self distances (S i) rest with
                    | Raise e => Raise e
                    | Ok results =>
                        Ok ({| text := text_; metadata := metadata_;
                               distance := dist_ |} :: results)
                    end
                end
            end
        end
  end.

(** [search(self, query_embedding, k=5)], lines 58-96.  It reads [self]
    and changes nothing. *)
Definition search (self : FAISSManager) (query_embedding : vector) (k : Z)
  : result (list SearchResult) :=
  if (ntotal (_index self) =? 0)%nat then Ok []
  else
    match index_search (_index self) query_embedding k with
    | Raise e => Raise e
    | Ok (distances, indices) => collect_results self distances 0 indices
    end.

(** [reset_index(self)], lines 98-103. *)
Definition reset_index (self : FAISSManager) : FAISSManager :=
  {| _index := index_reset (_index self); _texts := []; _metadatas := [] |}.

(** The stored counts agree and every row has the index's dimension. *)
Definition consistent (self : FAISSManager) : Prop :=
  length (_texts self) = ntotal (_index self)
  ∧ length (_metadatas self) = ntotal (_index self)
  ∧ Forall (λ v, length v = d (_index self)) (xb (_index self)).

(** The entry stored under label [l], with the distance of its row to
    [query]. *)
Definition entry_at (self : FAISSManager) (query : vector) (l : nat)
  : option SearchResult :=
  text_ ← _texts self !! l;
  metadata_ ← _metadatas self !! l;
  row ← xb (_index self) !! l;
  Some {| text := text_; metadata := metadata_; distance := L2sqr query row |}.

(** The metadata [add_documents] stores for a call: what was given when it
    is a non-empty list, one empty mapping per text otherwise. *)
Definition stored_metadatas (texts : list string)
    (metadatas : option (list metadata_dict)) : list metadata_dict :=
  match metadatas with
  | Some (m :: ms) => m :: ms
  | _ => (λ _, ∅) <$> texts
  end.

(** [add_documents] as the specification words it: an error whenever the
    lengths disagree, all entries appended otherwise, equal counts after
    the call. *)
Definition counts_agree (self : FAISSManager) : Prop :=
  ntotal (_index self) = length (_texts self)
  ∧ length (_texts self) = length (_metadatas self).

Definition lengths_disagree (embeddings : list vector) (texts : list string)
    (metadatas : option (list metadata_dict)) : Prop :=
  length embeddings ≠ length texts
  ∨ ∃ ms, metadatas = Some ms ∧ length ms ≠ length texts.

Definition add_as_specified (self : FAISSManager) (embeddings : list vector)
    (texts : list string) (metadatas : option (list metadata_dict)) : Prop :=
  let '(r, self') := add_documents self embeddings texts metadatas in
  (lengths_disagree embeddings texts metadatas → is_raise r)
  ∧ (¬ lengths_disagree embeddings texts metadatas →
     r = Ok tt
     ∧ xb (_index self') = xb (_index self) ++ embeddings
     ∧ _texts self' = _texts self ++ texts
     ∧ _metadatas self' = _metadatas self ++ stored_metadatas texts metadatas)
  ∧ counts_agree self'.



(** [search] as the specification words its count: exactly [min M k]
    results, [M] the number of stored entries, in non-decreasing
    distance. *)
Definition counts_as_specified (self : FAISSManager) (query : vector) (k : Z)
  : Prop :=
  ∃ results : list SearchResult,
    search self query k = Ok results
    ∧ Z.of_nat (length results) = Z.min (Z.of_nat (ntotal (_index self))) k
    ∧ StronglySorted dist_le (distance <$> results).

End Manager.

(** ** The request handler (main.py) *)

(** The collaborators the handler calls and the configured secret.  Only the
    answer generator is given a way to fail: its failure is what the failure
    policy of the batch is about. *)
Class Collaborators `{Metric} : Type := {
  REQUIRED_AUTH_TOKEN : string;
  extract_text_from_document : string → option string;
  split_text_into_chunks : string → Z → Z → list string;
  get_embeddings : list string → list vector;
  generate_answer : string → list string → result string;
}.

(** The default of [HACKRX_AUTH_TOKEN], line 33. *)
Definition DEFAULT_AUTH_TOKEN : string :=
  "ae3c781e80a6b6d0ec74b60585efe1b7c06c17b09b6b332f076692de6dcfd64b".

Definition CHUNK_SIZE : Z := 1000.
Definition CHUNK_OVERLAP : Z := 200.
Definition TOP_K_RETRIEVAL : Z := 10.

Record RunRequest : Type := {
  documents : string;
  questions : list string;
}.

Record RunResponse : Type := {
  answers : list string;
}.

(** What the handler asks of its collaborators and of the index, in the order
    in which it asks. *)
Inductive Event : Type :=
| EvExtract (url : string)
| EvSplit (document_text : string)
| EvEmbed (texts : list string)
| EvReset
| EvAdd (texts : list string)
| EvSearch (k : Z)
| EvGenerate (question : string) (contexts : list string).

(** The answer that stands in for a question without context, line 136. *)
Definition not_found (question : string) : string :=
  "Information for '" +:+ question +:+ "' not found in document.".

(** [await asyncio.gather] applied to the outcomes of [llm_tasks]: the
    results in the order of the tasks, or the exception of a task that
    raised. *)
Fixpoint gather (llm_tasks : list (result string)) : result (list string) :=
  match llm_tasks with
  | [] => Ok []
  | Ok a :: rest =>
      match gather rest with
      | Ok final_answers => Ok (a :: final_answers)
      | Raise e => Raise e
      end
  | Raise e :: _ => Raise e
  end.

Section Handler.
Context `{FI : FlatIndex} `{CO : !Collaborators}.

(** The process-wide state a request works on: the shared index manager,
    and the calls made so far. *)
Record World : Type := {
  faiss_manager : FAISSManager;
  calls : list Event;
}.

(** A step of the handler: it may raise, and it leaves a world behind
    either way. *)
Definition Run (A : Type) : Type := World → result A * World.

#[export] Instance Run_ret : MRet Run := λ A a w, (Ok a, w).

#[export] Instance Run_bind : MBind Run := λ A B f m w,
  match m w with
  | (Ok a, w') => f a w'
  | (Raise e, w') => (Raise e, w')
  end.

Definition raise {A} (e : exn) : Run A := λ w, (Raise e, w).

Definition emit (ev : Event) : Run unit := λ w,
  (Ok tt, {| faiss_manager := faiss_manager w; calls := calls w ++ [ev] |}).

Definition lift {A} (r : result A) : Run A := λ w, (r, w).

(** A method that mutates the shared manager. *)
Definition on_manager {A} (f : FAISSManager → result A * FAISSManager) : Run A := λ w,
  let '(r, m) := f (faiss_manager w) in
  (r, {| faiss_manager := m; calls := calls w |}).

(** Lines 50-68: the bearer token check. *)
Definition authenticate (auth_header : option string) : Run unit :=
  match auth_header with
  | None =>
      raise (HTTPException HTTP_401_UNAUTHORIZED "Authorization header missing")
  | Some header =>
      if negb (Py.truthy header) then
        raise (HTTPException HTTP_401_UNAUTHORIZED "Authorization header missing")
      else
        match Py.split " " header with
        | [token_type; token] =>
            if negb (String.eqb (Py.lower token_type) "bearer")
               || negb (String.eqb token REQUIRED_AUTH_TOKEN)
            then raise (HTTPException HTTP_401_UNAUTHORIZED
                          "Invalid authentication token")
            else mret tt
        | _ =>
            raise (HTTPException HTTP_401_UNAUTHORIZED
                     "Invalid Authorization header format. Expected 'Bearer <token>'")
        end
  end.

(** Lines 70-112: extraction, chunking, embedding of the chunks, then the
    reset of the index and the indexing of the chunks. *)
Definition ingest (document_url : string) : Run unit :=
  emit (EvExtract document_url);;
  match extract_text_from_document document_url with
  | None =>
      raise (HTTPException HTTP_400_BAD_REQUEST
               "Could not download or extract text from the provided document URL. Ensure it's a valid PDF, DOCX, or email link.")
  | Some document_text =>
      if negb (Py.truthy (Py.strip document_text)) then
        raise (HTTPException HTTP_400_BAD_REQUEST
                 "Could not download or extract text from the provided document URL. Ensure it's a valid PDF, DOCX, or email link.")
      else
        emit (EvSplit document_text);;
        let text_chunks :=
          split_text_into_chunks document_text CHUNK_SIZE CHUNK_OVERLAP in
        match text_chunks with
        | [] =>
            raise (HTTPException HTTP_400_BAD_REQUEST
                     "Could not split the document text into chunks.")
        | _ =>
            emit (EvEmbed text_chunks);;
            let chunk_embeddings := get_embeddings text_chunks in
            emit EvReset;;
            on_manager (λ self, (Ok tt, reset_index self));;
            emit (EvAdd text_chunks);;
            on_manager (λ self, add_documents self chunk_embeddings text_chunks None)
        end
  end.

(** Lines 118-155: for each question in turn, its embedding, the search,
    and the task that will hold its answer.  A task is represented by its
    outcome; the generator is called where its task is created. *)
Fixpoint prepare_tasks (questions : list string) : Run (list (result string)) :=
  match questions with
  | [] => mret []
  | question :: rest =>
      emit (EvEmbed [question]);;
      match get_embeddings [question] with
      | [] => raise IndexError
      | query_embedding_single :: _ =>
          emit (EvSearch TOP_K_RETRIEVAL);;
          search_results ← (λ w, (search (faiss_manager w) query_embedding_single
                                    TOP_K_RETRIEVAL, w));
          task ← match search_results with
                 | [] => mret (Ok (not_found question))
                 | _ =>
                     let retrieved_contexts := text <$> search_results in
                     emit (EvGenerate question retrieved_contexts);;
                     mret (generate_answer question retrieved_contexts)
                 end;
          llm_tasks ← prepare_tasks rest;
          mret (task :: llm_tasks)
      end
  end.

(** Lines 116-160: the tasks, then their results gathered in order. *)
Definition answer_questions (questions : list string) : Run (list string) :=
  llm_tasks ← prepare_tasks questions;
  lift (gather llm_tasks).

(** [run_hackrx_submission(request, payload)], lines 45-163. *)
Definition run_hackrx_submission (auth_header : option string)
    (payload : RunRequest) : Run RunResponse :=
  authenticate auth_header;;
  ingest (documents payload);;
  final_answers ← answer_questions (questions payload);
  mret {| answers := final_answers |}.

(** The contexts retrieved for one question (lines 123-139), as a function
    of the manager. *)
Definition retrieve (self : FAISSManager) (question : string) : result (list string) :=
  match get_embeddings [question] with
  | [] => Raise IndexError
  | query_embedding_single :: _ =>
      match search self query_embedding_single TOP_K_RETRIEVAL with
      | Raise e => Raise e
      | Ok search_results => Ok (text <$> search_results)
      end
  end.

(** The outcome of the unit of one question: its retrieval, then the
    fallback or the generated answer. *)
Definition unit_outcome (self : FAISSManager) (question : string) : result string :=
  match retrieve self question with
  | Raise e => Raise e
  | Ok [] => Ok (not_found question)
  | Ok contexts => generate_answer question contexts
  end.

End Handler.

(** ** Vocabulary of the specification *)

Section Vocabulary.
Context `{FI : FlatIndex} `{CO : !Collaborators}.

(** No [Authorization] header, or an empty one. *)
Definition absent (auth_header : option string) : Prop :=
  auth_header = None ∨ auth_header = Some "".

(** A header that is not two fields separated by one space. *)
Definition malformed (auth_header : option string) : Prop :=
  ∃ header, auth_header = Some header ∧ length (Py.split " " header) ≠ 2%nat.

(** Two fields, the first of which is not the bearer scheme. *)
Definition wrong_scheme (auth_header : option string) : Prop :=
  ∃ header token_type token,
    auth_header = Some header ∧ Py.split " " header = [token_type; token]
    ∧ Py.lower token_type ≠ "bearer".

(** Two fields, the second of which is not the configured secret. *)
Definition mismatched (auth_header : option string) : Prop :=
  ∃ header token_type token,
    auth_header = Some header ∧ Py.split " " header = [token_type; token]
    ∧ token ≠ REQUIRED_AUTH_TOKEN.

(** The bearer scheme in any letter case, one space, the configured
    secret. *)
Definition well_authorized (auth_header : option string) : Prop :=
  ∃ header token_type,
    auth_header = Some header
    ∧ Py.split " " header = [token_type; REQUIRED_AUTH_TOKEN]
    ∧ Py.lower token_type = "bearer".

Definition no_space (s : string) : Prop :=
  " "%char ∉ list_ascii_of_string s.

Definition whitespace_only (s : string) : Prop :=
  Forall (λ c, Py.isspace c = true) (list_ascii_of_string s).

(** What the handler does once the bearer check has passed. *)
Definition after_auth (payload : RunRequest) : Run RunResponse :=
  ingest (documents payload);;
  final_answers ← answer_questions (questions payload);
  mret {| answers := final_answers |}.

(** The request cannot be indexed: no text, blank text, or no chunk. *)
Definition unindexable (document_url : string) : Prop :=
  extract_text_from_document document_url = None
  ∨ (∃ document_text,
       extract_text_from_document document_url = Some document_text
       ∧ whitespace_only document_text)
  ∨ (∃ document_text,
       extract_text_from_document document_url = Some document_text
       ∧ split_text_into_chunks document_text CHUNK_SIZE CHUNK_OVERLAP = []).

(** The chunks of a document text, and the manager a successful pass over
    them leaves behind. *)
Definition chunks_of (document_text : string) : list string :=
  split_text_into_chunks document_text CHUNK_SIZE CHUNK_OVERLAP.

Definition indexed (self : FAISSManager) (text_chunks : list string)
  : result unit * FAISSManager :=
  add_documents (reset_index self) (get_embeddings text_chunks) text_chunks None.

Definition BAD_DOCUMENT : exn :=
  HTTPException HTTP_400_BAD_REQUEST
    "Could not download or extract text from the provided document URL. Ensure it's a valid PDF, DOCX, or email link.".

Definition NO_CHUNKS : exn :=
  HTTPException HTTP_400_BAD_REQUEST
    "Could not split the document text into chunks.".

(** The world after [evs] more calls. *)
Definition called (w : World) (evs : list Event) : World :=
  {| faiss_manager := faiss_manager w; calls := calls w ++ evs |}.

(** The events of one turn of the loop, and the task it creates, from the
    results of its search. *)
Definition turn_calls (question : string) (search_results : list SearchResult)
  : list Event :=
  [EvEmbed [question]; EvSearch TOP_K_RETRIEVAL]
  ++ match search_results with
     | [] => []
     | _ => [EvGenerate question (text <$> search_results)]
     end.

Definition turn_task (question : string) (search_results : list SearchResult)
  : result string :=
  match search_results with
  | [] => Ok (not_found question)
  | _ => generate_answer question (text <$> search_results)
  end.

#[export] Instance is_raise_dec {A} (r : result A) : Decision (is_raise r).
Proof. destruct r; simpl; apply _. Defined.

(** Position of the first event satisfying [p]. *)
Fixpoint first_index (p : Event → bool) (evs : list Event) : option nat :=
  match evs with
  | [] => None
  | ev :: evs' => if p ev then Some 0%nat else S <$> first_index p evs'
  end.

Definition is_reset (ev : Event) : bool :=
  match ev with EvReset => true | _ => false end.
Definition is_split (ev : Event) : bool :=
  match ev with EvSplit _ => true | _ => false end.
Definition is_embed (ev : Event) : bool :=
  match ev with EvEmbed _ => true | _ => false end.
Definition is_add (ev : Event) : bool :=
  match ev with EvAdd _ => true | _ => false end.

(** "[a] happens, and [b] happens after it." *)
Definition before (a b : Event → bool) (evs : list Event) : Prop :=
  ∃ i j, first_index a evs = Some i ∧ first_index b evs = Some j ∧ (i < j)%nat.

(** The order of the ingestion steps with the reset in front. *)
Definition reset_comes_first (evs : list Event) : Prop :=
  before is_reset is_split evs ∧ before is_split is_embed evs
  ∧ before is_embed is_add evs.

End Vocabulary.

(** ** A reference instance: integer rows, exact distances, exhaustive search *)

Module Reference.

(** Squared L2 distance of two integer rows. *)
Fixpoint sqdist (q v : list Z) : Z :=
  match q, v with
  | a :: q', b :: v' => (a - b) * (a - b) + sqdist q' v'
  | _, _ => 0
  end.

#[export] Instance ZMetric : Metric :=
  {| scalar := Z; dist := Z; dist_le := Z.le; L2sqr := sqdist |}.

(** The distance written next to a [-1] label. *)
Definition FLT_MAX : Z := 2 ^ 128.

(** Every stored row with its distance to the query and its label. *)
Definition candidates (rows : list (list Z)) (query : list Z) : list (Z * nat) :=
  imap (λ l v, (sqdist query v, l)) rows.

(** Nearer first; at equal distance the row inserted first. *)
Definition earlier_first (a b : Z * nat) : Prop :=
  a.1 < b.1 ∨ (a.1 = b.1 ∧ (a.2 ≤ b.2)%nat).

#[export] Instance earlier_first_dec : RelDecision earlier_first.
Proof. intros a b. unfold earlier_first. apply _. Defined.

(** Exhaustive search: all candidates in the order [R], the first [k] of
    them, padded to length [k].  It refuses [k <= 0]. *)
Definition exhaustive_search (R : relation (Z * nat)) `{!RelDecision R}
    (rows : list (list Z)) (query : list Z) (k : Z) : option (list Z * list Z) :=
  if 0 <? k then
    let best := take (Z.to_nat k) (merge_sort R (candidates rows query)) in
    let pad := (Z.to_nat k - length best)%nat in
    Some (best.*1 ++ replicate pad FLT_MAX,
          (Z.of_nat <$> best.*2) ++ replicate pad (-1))
  else None.

(** The flat index over integer rows: like [IndexFlatL2] it compares the
    query with every stored row, refuses [k <= 0], and returns the rows by
    increasing distance, those at equal distance by increasing label. *)
Definition StableIndex : FlatIndex :=
  {| knn_search := exhaustive_search earlier_first |}.

(** Collaborators for the examples: a document is its URL's text after the
    scheme, a chunk is a word, the embedding of a text is its length, and
    the generator fails on the question ["boom"]. *)
Definition demo : Collaborators :=
  {| REQUIRED_AUTH_TOKEN := DEFAULT_AUTH_TOKEN;
     extract_text_from_document := λ url,
       match Py.split ":" url with
       | [_; body] => Some body
       | _ => None
       end;
     split_text_into_chunks := λ document_text _ _,
       filter (λ w, w ≠ "") (Py.split " " document_text);
     get_embeddings := fmap (λ s, [Z.of_nat (String.length s)]);
     generate_answer := λ question contexts,
       if String.eqb question "boom" then Raise (RuntimeError "generation failed")
       else Ok ("answer:" +:+ question) |}.

Definition bearer : option string := Some ("Bearer " +:+ DEFAULT_AUTH_TOKEN).

(** A fresh process: an empty one-dimensional index and no call made. *)
Definition fresh : World :=
  {| faiss_manager := new 1; calls := [] |}.

(** A manager holding the chunks ["aa"], ["bbb"], ["c"] as the rows
    [[2]], [[3]], [[1]]. *)
Definition library : FAISSManager :=
  (add_documents (new 1) [[2]; [3]; [1]] ["aa"; "bbb"; "c"] None).2.

(** Two entries at the same place, ["first"] stored before ["second"]. *)
Definition two_equal : FAISSManager :=
  (add_documents (new 1) [[1]; [1]] ["first"; "second"] None).2.

End Reference.

(** ** The document loader (src/utils/document_loader.py) *)

Abbreviation bytes := (list Byte.byte).

Module DocumentLoader.

(** An element of a partitioned e-mail: whether it has a [text] attribute,
    and [str(el)]. *)
Record Element : Type := {
  has_text : bool;
  str : string;
}.

(** The libraries the loader calls.  [http_get] is [requests.get] followed
    by [raise_for_status]: the content, or [None] for a
    [RequestException].  A reader hands out its pages or paragraphs one at
    a time, and any step may raise.  [decode_utf8] is
    [bytes.decode('utf-8', errors='ignore')], which does not raise. *)
Class Libraries : Type := {
  http_get : string → option bytes;
  PdfReader : bytes → result (list (result (option string)));
  Document : bytes → result (list (result string));
  partition_msg : bytes → result (list Element);
  partition_email : bytes → result (list Element);
  decode_utf8 : bytes → string;
}.

Section Loader.
Context `{LB : Libraries}.

(** [load_document_from_url(url)], lines 11-22. *)
Definition load_document_from_url (url : string) : option bytes :=
  http_get url.

(** [get_document_type(url)], lines 25-38. *)
Definition get_document_type (url : string) : string :=
  let lower_url := Py.lower url in
  if Py.contains ".pdf" lower_url then "pdf"
  else if Py.contains ".docx" lower_url then "docx"
  else if Py.contains ".msg" lower_url then "msg"
  else if Py.contains ".eml" lower_url then "eml"
  else "unknown".

(** The loop of [extract_text_from_pdf]: [text += page.extract_text() or ""],
    left at the first page that raises. *)
Fixpoint read_pages (text : string) (pages : list (result (option string))) : string :=
  match pages with
  | [] => text
  | Raise _ :: _ => text
  | Ok page :: rest => read_pages (text +:+ default "" page) rest
  end.

(** [extract_text_from_pdf(pdf_content)], lines 40-52. *)
Definition extract_text_from_pdf (pdf_content : bytes) : string :=
  Py.strip
    match PdfReader pdf_content with
    | Raise _ => ""
    | Ok pages => read_pages "" pages
    end.

(** The loop of [extract_text_from_docx]: [text += paragraph.text + "\n"]. *)
Fixpoint read_paragraphs (text : string) (paragraphs : list (result string)) : string :=
  match paragraphs with
  | [] => text
  | Raise _ :: _ => text
  | Ok paragraph :: rest => read_paragraphs (text +:+ paragraph +:+ Py.NL) rest
  end.

(** [extract_text_from_docx(docx_content)], lines 54-66. *)
Definition extract_text_from_docx (docx_content : bytes) : string :=
  Py.strip
    match Document docx_content with
    | Raise _ => ""
    | Ok paragraphs => read_paragraphs "" paragraphs
    end.

(** [extract_text_from_email(email_content, file_extension)], lines 68-92.
    An extension that is neither ["msg"] nor ["eml"] returns [""] at once;
    a partition that raises, or that yields no text, falls back on the
    decoded content. *)
Definition extract_text_from_email (email_content : bytes)
    (file_extension : string) : string :=
  let partition :=
    if String.eqb file_extension "msg" then Some partition_msg
    else if String.eqb file_extension "eml" then Some partition_email
    else None in
  match partition with
  | None => ""
  | Some partition_file =>
      Py.strip
        match partition_file email_content with
        | Raise _ => decode_utf8 email_content
        | Ok elements =>
            let text :=
              Py.join (Py.NL +:+ Py.NL) (str <$> List.filter has_text elements) in
            if Py.truthy text then text else decode_utf8 email_content
        end
  end.

(** [text_content if text_content else None] *)
Definition if_text (text_content : string) : option string :=
  if Py.truthy text_content then Some text_content else None.

(** [extract_text_from_document(url)], lines 94-114. *)
Definition extract_text_from_document (url : string) : option string :=
  match load_document_from_url url with
  | None => None
  | Some document_content =>
      let doc_type := get_document_type url in
      if String.eqb doc_type "pdf" then
        if_text (extract_text_from_pdf document_content)
      else if String.eqb doc_type "docx" then
        if_text (extract_text_from_docx document_content)
      else if String.eqb doc_type "msg" || String.eqb doc_type "eml" then
        if_text (extract_text_from_email document_content doc_type)
      else None
  end.

(** [ext] occurs in [s]. *)
Definition occurs (ext s : string) : Prop :=
  ∃ a b, s = a +:+ ext +:+ b.

End Loader.

End DocumentLoader.

(** The handler's collaborators with this loader in the place of the
    extraction. *)
Definition with_loader `{Metric} `{LB : DocumentLoader.Libraries} (CO : Collaborators)
  : Collaborators :=
  {| REQUIRED_AUTH_TOKEN := REQUIRED_AUTH_TOKEN;
     extract_text_from_document := DocumentLoader.extract_text_from_document;
     split_text_into_chunks := split_text_into_chunks;
     get_embeddings := get_embeddings;
     generate_answer := generate_answer |}.

(** ** The manager as a process-wide singleton *)

Section Singleton.
Context `{FI : FlatIndex}.

(** [FAISSManager(dimension)], lines 13-24, from the class attribute
    [_instance]: the first call builds the manager, a later call hands the
    same manager out and does not look at [dimension]. *)
Definition construct (_instance : option FAISSManager) (dimension : nat)
  : FAISSManager :=
  match _instance with
  | None => new dimension
  | Some self => self
  end.

(** A call a client can make on the class or on its instance. *)
Inductive Call : Type :=
| CallNew (dimension : nat)
| CallAdd (embeddings : list vector) (texts : list string)
    (metadatas : option (list metadata_dict))
| CallReset.

(** The instance after one more call; a method has no effect before the
    first construction, there being no instance to call it on. *)
Definition step (_instance : option FAISSManager) (call : Call)
  : option FAISSManager :=
  match call with
  | CallNew dimension => Some (construct _instance dimension)
  | CallAdd embeddings texts metadatas =>
      (λ self, (add_documents self embeddings texts metadatas).2) <$> _instance
  | CallReset => reset_index <$> _instance
  end.

(** What every call keeps: one text per row, no more metadata than texts,
    rows of the index's dimension. *)
Definition sound (self : FAISSManager) : Prop :=
  length (_texts self) = ntotal (_index self)
  ∧ (length (_metadatas self) ≤ length (_texts self))%nat
  ∧ Forall (λ v, length v = d (_index self)) (xb (_index self)).

End Singleton.

(** Libraries for the examples: the content of a URL is the URL itself, a
    URL that holds ["missing"] cannot be fetched; the PDF has three pages,
    one of them without text, and a fourth that cannot be read; the DOCX
    has one paragraph; an Outlook message cannot be partitioned, an e-mail
    has one element with text. *)
Module ReferenceLoader.

Definition libraries : DocumentLoader.Libraries :=
  {| DocumentLoader.http_get := λ url,
       if Py.contains "missing" url then None else Some (list_byte_of_string url);
     DocumentLoader.PdfReader := λ _,
       Ok [Ok (Some "  aa bbb"); Ok None; Ok (Some " c  ");
           Raise (RuntimeError "unreadable page"); Ok (Some "lost")];
     DocumentLoader.Document := λ _, Ok [Ok "dddd ee"];
     DocumentLoader.partition_msg := λ _, Raise (RuntimeError "not a message");
     DocumentLoader.partition_email := λ _,
       Ok [ {| DocumentLoader.has_text := false; DocumentLoader.str := "header" |};
            {| DocumentLoader.has_text := true; DocumentLoader.str := "hello" |} ];
     DocumentLoader.decode_utf8 := string_of_list_byte |}.

(** The collaborators of the examples, with the loader for extraction. *)
Definition loading : Collaborators :=
  with_loader (LB := libraries) Reference.demo.

End ReferenceLoader.

(** The collaborators of the examples with an embedding model of another
    dimension than the index. *)
Module ReferenceMisfit.
Import Reference.

Definition two_dimensional : Collaborators :=
  {| REQUIRED_AUTH_TOKEN := DEFAULT_AUTH_TOKEN;
     extract_text_from_document :=
       extract_text_from_document (Collaborators := demo);
     split_text_into_chunks :=
       split_text_into_chunks (Collaborators := demo);
     get_embeddings := fmap (λ s, [Z.of_nat (String.length s); 0]);
     generate_answer := generate_answer (Collaborators := demo) |}.

(** A manager left by a refused addition: one text, no metadata. *)
Definition lagging : FAISSManager :=
  (add_documents (new 1) [[1]] ["a"] (Some [∅; ∅])).2.

End ReferenceMisfit.

(** * Properties *)

(** ** Python strings *)

Lemma split_no_sep (sep : ascii) (s : string) :
  sep ∉ list_ascii_of_string s → Py.split sep s = [s].
Proof.
  induction s as [|c s IH]; simpl; [done|].
  intros Hnot. apply not_elem_of_cons in Hnot as [Hne Hnot].
  destruct (Ascii.eqb_spec c sep) as [->|_]; [done|].
  by rewrite (IH Hnot).
Qed.

Lemma append_nil_l (b : string) : "" +:+ b = b.
Proof. reflexivity. Qed.

Lemma append_cons (c : ascii) (a b : string) :
  String c a +:+ b = String c (a +:+ b).
Proof. reflexivity. Qed.

Lemma split_two_fields (a b : string) :
  no_space a → no_space b → Py.split " " (a +:+ " " +:+ b) = [a; b].
Proof.
  unfold no_space. induction a as [|c a IH]; intros Ha Hb.
  - rewrite append_nil_l, append_cons, append_nil_l. simpl.
    by rewrite (split_no_sep _ _ Hb).
  - simpl in Ha. apply not_elem_of_cons in Ha as [Hne Ha].
    rewrite append_cons. simpl.
    destruct (Ascii.eqb_spec c " ") as [->|_]; [done|].
    by rewrite (IH Ha Hb).
Qed.

Lemma lower_keeps_space (s : string) :
  no_space (Py.lower s) → no_space s.
Proof.
  unfold no_space. induction s as [|c s IH]; simpl; [done|].
  rewrite !not_elem_of_cons. intros [Hne Hs]. split; [|by apply IH].
  intros <-. by apply Hne.
Qed.

Lemma bearer_no_space (token_type : string) :
  Py.lower token_type = "bearer" → no_space token_type.
Proof.
  intros Hl. apply lower_keeps_space. rewrite Hl. unfold no_space. simpl.
  rewrite !not_elem_of_cons. repeat split; try discriminate. apply not_elem_of_nil.
Qed.

Lemma lstrip_chars_nil (l : list ascii) :
  Py.lstrip_chars l = [] ↔ Forall (λ c, Py.isspace c = true) l.
Proof.
  induction l as [|c l IH]; simpl; [by split|].
  destruct (Py.isspace c) eqn:Hc.
  - rewrite IH. split; [by constructor|]. by inversion 1.
  - split; [done|]. inversion 1; congruence.
Qed.

Lemma lstrip_chars_head (l : list ascii) c l' :
  Py.lstrip_chars l = c :: l' → Py.isspace c = false.
Proof.
  induction l as [|c0 l IH]; simpl; [done|].
  destruct (Py.isspace c0) eqn:Hc; [done|]. by intros [= <- _].
Qed.

Lemma string_of_list_ascii_nil (l : list ascii) :
  string_of_list_ascii l = "" ↔ l = [].
Proof. destruct l; simpl; split; congruence. Qed.

(** [s.strip()] is empty exactly when [s] holds nothing but whitespace. *)
Lemma strip_empty (s : string) :
  Py.strip s = "" ↔ whitespace_only s.
Proof.
  unfold Py.strip, whitespace_only.
  rewrite string_of_list_ascii_nil, <- lstrip_chars_nil.
  split.
  - intros Hnil. apply (f_equal (@rev ascii)) in Hnil.
    rewrite rev_involutive in Hnil. simpl in Hnil.
    apply lstrip_chars_nil in Hnil.
    destruct (Py.lstrip_chars (list_ascii_of_string s)) as [|c l] eqn:Hl; [done|].
    apply lstrip_chars_head in Hl.
    assert (Hin : c ∈ rev (c :: l)).
    { apply list_elem_of_In. apply -> in_rev. by left. }
    rewrite Forall_forall in Hnil. specialize (Hnil c Hin). congruence.
  - by intros ->.
Qed.

Lemma truthy_empty (s : string) : Py.truthy s = false ↔ s = "".
Proof. by destruct s. Qed.

(** ** The index manager *)

Section ManagerFacts.
Context `{FI : FlatIndex}.

Lemma index_of_nat {A} (l : list A) (n : nat) :
  Py.index l (Z.of_nat n) = l !! n.
Proof.
  unfold Py.index. destruct (Z.leb_spec 0 (Z.of_nat n)); [|lia].
  by rewrite Nat2Z.id.
Qed.

Lemma index_elem_of {A} (l : list A) (i : Z) (x : A) :
  Py.index l i = Some x → x ∈ l.
Proof.
  unfold Py.index. repeat case_match; try done; apply list_elem_of_lookup_2.
Qed.

(** Every text [search] hands out is a text the manager stores. *)
Lemma collect_results_stored (self : FAISSManager) distances indices :
  ∀ i results,
    collect_results self distances i indices = Ok results →
    Forall (λ r, text r ∈ _texts self) results.
Proof.
  induction indices as [|idx rest IH]; simpl; intros i results Hres.
  - by injection Hres as <-.
  - destruct (idx =? -1); [by eapply IH|].
    destruct (Py.index (_texts self) idx) as [t|] eqn:Ht; [|done].
    destruct (if idx <? _ then _ else _) as [m|]; [|done].
    destruct (distances !! i) as [dl|]; [|done].
    destruct (collect_results self distances (S i) rest) as [rs|] eqn:Hrs; [|done].
    injection Hres as <-. constructor; [|by eapply IH].
    simpl. by eapply index_elem_of.
Qed.

Lemma search_stored (self : FAISSManager) query k results :
  search self query k = Ok results →
  Forall (λ r, text r ∈ _texts self) results.
Proof.
  unfold search. destruct (ntotal (_index self) =? 0)%nat.
  - by intros [= <-].
  - destruct (index_search _ _ _) as [[distances indices]|]; [|done].
    apply collect_results_stored.
Qed.

Lemma search_empty (self : FAISSManager) query k :
  ntotal (_index self) = 0%nat → search self query k = Ok [].
Proof. unfold search. by intros ->. Qed.

Lemma reset_index_count (self : FAISSManager) :
  ntotal (_index (reset_index self)) = 0%nat.
Proof. reflexivity. Qed.

Lemma consistent_new (dimension : nat) : consistent (new dimension).
Proof. repeat split. constructor. Qed.

Lemma consistent_reset (self : FAISSManager) : consistent (reset_index self).
Proof. repeat split. constructor. Qed.

Lemma dimension_check (n : nat) (embeddings : list vector) :
  forallb (λ v, (length v =? n)%nat) embeddings = true
  ↔ Forall (λ v, length v = n) embeddings.
Proof.
  rewrite forallb_forall, Forall_forall.
  split; intros Hall v Hv.
  - by apply Nat.eqb_eq, Hall, list_elem_of_In.
  - by apply Nat.eqb_eq, Hall, list_elem_of_In.
Qed.

Lemma index_add_ok (ix : IndexFlatL2) embeddings ix' :
  index_add ix embeddings = Ok ix' ↔
  Forall (λ v, length v = d ix) embeddings
  ∧ ix' = {| d := d ix; xb := xb ix ++ embeddings |}.
Proof.
  unfold index_add. rewrite <- dimension_check.
  destruct (forallb _ embeddings); split.
  - by intros [= <-].
  - by intros [_ ->].
  - done.
  - by intros [? _].
Qed.

End ManagerFacts.

Section AddDocuments.
Context `{FI : FlatIndex}.

Lemma counts_agree_consistent (self : FAISSManager) :
  consistent self → counts_agree self.
Proof. intros (Ht & Hm & _). unfold counts_agree. by rewrite Ht, Hm. Qed.

(** The five ways a call can go. *)
Lemma add_documents_cases (self : FAISSManager) (embeddings : list vector)
    (texts : list string) (metadatas : option (list metadata_dict)) :
  ((embeddings = [] ∨ texts = [])
   ∧ add_documents self embeddings texts metadatas = (Ok tt, self))
  ∨ (embeddings ≠ [] ∧ texts ≠ [] ∧ length embeddings ≠ length texts
     ∧ add_documents self embeddings texts metadatas
       = (Raise (ValueError "Number of embeddings and texts must match."), self))
  ∨ (embeddings ≠ [] ∧ texts ≠ [] ∧ length embeddings = length texts
     ∧ ¬ Forall (λ v, length v = d (_index self)) embeddings
     ∧ ∃ e, add_documents self embeddings texts metadatas = (Raise e, self))
  ∨ (embeddings ≠ [] ∧ texts ≠ [] ∧ length embeddings = length texts
     ∧ Forall (λ v, length v = d (_index self)) embeddings
     ∧ ∃ m ms, metadatas = Some (m :: ms) ∧ length (m :: ms) ≠ length texts
       ∧ add_documents self embeddings texts metadatas
         = (Raise (ValueError "Number of metadatas and texts must match if provided."),
            {| _index := {| d := d (_index self);
                            xb := xb (_index self) ++ embeddings |};
               _texts := _texts self ++ texts;
               _metadatas := _metadatas self |}))
  ∨ (embeddings ≠ [] ∧ texts ≠ [] ∧ length embeddings = length texts
     ∧ Forall (λ v, length v = d (_index self)) embeddings
     ∧ length (stored_metadatas texts metadatas) = length texts
     ∧ add_documents self embeddings texts metadatas
       = (Ok tt,
          {| _index := {| d := d (_index self);
                          xb := xb (_index self) ++ embeddings |};
             _texts := _texts self ++ texts;
             _metadatas := _metadatas self ++ stored_metadatas texts metadatas |})).
Proof.
  unfold add_documents.
  destruct (bool_decide_reflect (embeddings = [] ∨ texts = [])) as [Hemp|Hne];
    [by left|right].
  assert (embeddings ≠ [] ∧ texts ≠ []) as [He Ht].
  { split; intros ->; apply Hne; auto. }
  destruct (Nat.eqb_spec (length embeddings) (length texts)) as [Hlen|Hlen];
    cbn [negb]; [right|by left].
  destruct (index_add (_index self) embeddings) as [ix|e] eqn:Hadd.
  2:{ left. split; [done|]. split; [done|]. split; [done|]. split; [|by exists e].
      intros Hdim. unfold index_add in Hadd.
      apply dimension_check in Hdim. by rewrite Hdim in Hadd. }
  apply index_add_ok in Hadd as [Hdim ->]. right.
  destruct metadatas as [[|m ms]|].
  - right. split_and!; try done. simpl. by rewrite length_fmap.
  - destruct (Nat.eqb_spec (length (m :: ms)) (length texts)) as [Hms|Hms];
      cbn [negb].
    + right. split_and!; done.
    + left. split_and!; try done. by exists m, ms.
  - right. split_and!; try done. simpl. by rewrite length_fmap.
Qed.

(** C7 (amended).  On a manager whose counts agree, [add_documents]
    - returns without error and stores nothing when [embeddings] or [texts]
      is empty, whatever the lengths;
    - raises, storing nothing, when both are non-empty and their lengths
      differ, or when an embedding has not the dimension of the index;
    - raises when a non-empty [metadatas] has not the length of [texts];
    - otherwise appends every embedding, text and metadata, an absent or
      empty [metadatas] standing for one empty mapping per text;
    - leaves the counts of embeddings, texts and metadata equal whenever it
      returns without error. *)
Theorem add_documents_spec (self : FAISSManager) (embeddings : list vector)
    (texts : list string) (metadatas : option (list metadata_dict)) :
  consistent self →
  let r := (add_documents self embeddings texts metadatas).1 in
  let self' := (add_documents self embeddings texts metadatas).2 in
  (embeddings = [] ∨ texts = [] → r = Ok tt ∧ self' = self)
  ∧ (embeddings ≠ [] → texts ≠ [] → length embeddings ≠ length texts →
     r = Raise (ValueError "Number of embeddings and texts must match.")
     ∧ self' = self)
  ∧ (embeddings ≠ [] → texts ≠ [] →
     ¬ Forall (λ v, length v = d (_index self)) embeddings →
     is_raise r ∧ self' = self)
  ∧ (embeddings ≠ [] → texts ≠ [] →
     ∀ m ms, metadatas = Some (m :: ms) → length (m :: ms) ≠ length texts →
             is_raise r)
  ∧ (embeddings ≠ [] → texts ≠ [] → length embeddings = length texts →
     Forall (λ v, length v = d (_index self)) embeddings →
     length (stored_metadatas texts metadatas) = length texts →
     r = Ok tt
     ∧ xb (_index self') = xb (_index self) ++ embeddings
     ∧ _texts self' = _texts self ++ texts
     ∧ _metadatas self' = _metadatas self ++ stored_metadatas texts metadatas)
  ∧ (r = Ok tt → consistent self' ∧ counts_agree self').
Proof.
  intros Hcons r self'. subst r self'.
  pose proof (counts_agree_consistent self Hcons) as Hagree.
  destruct (add_documents_cases self embeddings texts metadatas)
    as [(Hemp & ->)|[(He & Ht & Hlen & ->)|[(He & Ht & Hlen & Hdim & e & ->)
       |[(He & Ht & Hlen & Hdim & m & ms & -> & Hms & ->)
        |(He & Ht & Hlen & Hdim & Hmd & ->)]]]]; simpl.
  - split_and!; intros; destruct_or?; done.
  - split_and!; intros; destruct_or?; try congruence; by try split.
  - split_and!; intros; destruct_or?; try congruence; by try split.
  - split_and!; intros; destruct_or?; simpl in *; try congruence; by try split.
  - assert (Hc : consistent
      {| _index := {| d := d (_index self); xb := xb (_index self) ++ embeddings |};
         _texts := _texts self ++ texts;
         _metadatas := _metadatas self ++ stored_metadatas texts metadatas |}).
    { destruct Hcons as (Hct & Hcm & Hcd). unfold consistent, ntotal in *. simpl.
      rewrite !length_app, Hmd, Hct, Hcm, Hlen. split_and!; try done.
      by apply Forall_app. }
    split_and!; intros; destruct_or?; simplify_eq; simpl in *;
      try congruence; try done.
    split; [done|]. by apply counts_agree_consistent.
Qed.

End AddDocuments.

(** ** The request handler *)

Section HandlerFacts.
Context `{FI : FlatIndex} `{CO : !Collaborators}.

Ltac run_unfold :=
  unfold mbind, Run_bind, mret, Run_ret, raise, emit, lift, on_manager, called.

Lemma called_nil (w : World) : called w [] = w.
Proof. destruct w. unfold called. simpl. by rewrite app_nil_r. Qed.

Lemma called_app (w : World) evs1 evs2 :
  called (called w evs1) evs2 = called w (evs1 ++ evs2).
Proof. unfold called. simpl. by rewrite app_assoc. Qed.

(** The four ways the ingestion phase can go. *)
Lemma ingest_cases (document_url : string) (w : World) :
  ((extract_text_from_document document_url = None
    ∨ ∃ document_text,
        extract_text_from_document document_url = Some document_text
        ∧ whitespace_only document_text)
   ∧ ingest document_url w = (Raise BAD_DOCUMENT, called w [EvExtract document_url]))
  ∨ (∃ document_text,
       extract_text_from_document document_url = Some document_text
       ∧ ¬ whitespace_only document_text
       ∧ chunks_of document_text = []
       ∧ ingest document_url w
         = (Raise NO_CHUNKS,
            called w [EvExtract document_url; EvSplit document_text]))
  ∨ (∃ document_text,
       extract_text_from_document document_url = Some document_text
       ∧ ¬ whitespace_only document_text
       ∧ chunks_of document_text ≠ []
       ∧ ingest document_url w
         = ((indexed (faiss_manager w) (chunks_of document_text)).1,
            {| faiss_manager :=
                 (indexed (faiss_manager w) (chunks_of document_text)).2;
               calls := calls w ++
                 [EvExtract document_url; EvSplit document_text;
                  EvEmbed (chunks_of document_text); EvReset;
                  EvAdd (chunks_of document_text)] |})).
Proof.
  unfold ingest, chunks_of, indexed.
  destruct (extract_text_from_document document_url) as [document_text|] eqn:Hx.
  2:{ left. split; [by left|]. reflexivity. }
  destruct (Py.truthy (Py.strip document_text)) eqn:Hblank; cbn [negb].
  2:{ left. apply truthy_empty, strip_empty in Hblank. split; [|reflexivity].
      right. by exists document_text. }
  assert (¬ whitespace_only document_text) as Hnb.
  { intros Hws. apply strip_empty, truthy_empty in Hws. congruence. }
  right.
  destruct (split_text_into_chunks document_text CHUNK_SIZE CHUNK_OVERLAP)
    as [|c cs] eqn:Hchunks.
  - left. exists document_text. split_and!; try done.
    run_unfold. simpl. by rewrite <- app_assoc.
  - right. exists document_text. rewrite Hchunks. split_and!; try done.
    run_unfold. cbn -[add_documents reset_index].
    destruct (add_documents _ _ _ _) as [r m]. simpl.
    by rewrite <- !app_assoc.
Qed.


(** *** The bearer check *)

Lemma authenticate_accepts (auth_header : option string) (w : World) :
  well_authorized auth_header → authenticate auth_header w = (Ok tt, w).
Proof.
  intros (header & token_type & -> & Hsplit & Hlower). unfold authenticate.
  destruct header as [|c header]; [done|]. cbn [Py.truthy negb].
  rewrite Hsplit, Hlower, !String.eqb_refl. reflexivity.
Qed.

Lemma authenticate_rejects (auth_header : option string) (w : World) :
  absent auth_header ∨ malformed auth_header
  ∨ wrong_scheme auth_header ∨ mismatched auth_header →
  ∃ detail,
    authenticate auth_header w
    = (Raise (HTTPException HTTP_401_UNAUTHORIZED detail), w).
Proof.
  unfold authenticate.
  intros [[->| ->]|[(header & -> & Hlen)
         |[(header & token_type & token & -> & Hsplit & Hscheme)
          |(header & token_type & token & -> & Hsplit & Htoken)]]].
  - by eexists.
  - by eexists.
  - destruct (Py.truthy header); cbn [negb]; [|by eexists].
    destruct (Py.split " " header) as [|a [|b [|c l]]];
      [by eexists|by eexists|done|by eexists].
  - destruct (Py.truthy header); cbn [negb]; [|by eexists].
    rewrite Hsplit.
    destruct (String.eqb_spec (Py.lower token_type) "bearer") as [?|_]; [done|].
    by eexists.
  - destruct (Py.truthy header); cbn [negb]; [|by eexists].
    rewrite Hsplit.
    destruct (String.eqb_spec token REQUIRED_AUTH_TOKEN) as [?|_]; [done|].
    rewrite orb_true_r. by eexists.
Qed.

(** Every header is of exactly one of the two kinds. *)
Lemma header_kinds (auth_header : option string) :
  well_authorized auth_header
  ∨ (absent auth_header ∨ malformed auth_header
     ∨ wrong_scheme auth_header ∨ mismatched auth_header).
Proof.
  destruct auth_header as [header|]; [|right; left; by left].
  destruct (Py.split " " header) as [|a [|b [|c l]]] eqn:Hsplit;
    try (right; right; left; exists header; by rewrite Hsplit).
  destruct (decide (Py.lower a = "bearer")) as [Hs|Hs];
    [|right; right; right; left; by exists header, a, b].
  destruct (decide (b = REQUIRED_AUTH_TOKEN)) as [->|Ht];
    [|right; right; right; right; by exists header, a, b].
  left. by exists header, a.
Qed.

Lemma literal_header_well_authorized (scheme : string) :
  Py.lower scheme = "bearer" → no_space REQUIRED_AUTH_TOKEN →
  well_authorized (Some (scheme +:+ " " +:+ REQUIRED_AUTH_TOKEN)).
Proof.
  intros Hs Hsecret. eexists _, scheme. split_and!; try done.
  apply split_two_fields; [by apply bearer_no_space | done].
Qed.

Lemma run_rejected (auth_header : option string) payload (w : World) e :
  authenticate auth_header w = (Raise e, w) →
  run_hackrx_submission auth_header payload w = (Raise e, w).
Proof. intros Hauth. unfold run_hackrx_submission. run_unfold. by rewrite Hauth. Qed.

Lemma run_accepted (auth_header : option string) payload (w : World) :
  authenticate auth_header w = (Ok tt, w) →
  run_hackrx_submission auth_header payload w = after_auth payload w.
Proof. intros Hauth. unfold run_hackrx_submission. run_unfold. by rewrite Hauth. Qed.


(** *** The questions *)

Lemma gather_ok (llm_tasks : list (result string)) (final_answers : list string) :
  gather llm_tasks = Ok final_answers ↔ llm_tasks = Ok <$> final_answers.
Proof.
  revert final_answers. induction llm_tasks as [|[a|e] rest IH]; intros fa; simpl.
  - split; [intros [= <-]; done|]. by destruct fa.
  - destruct (gather rest) as [fa'|e'] eqn:Hg.
    + split.
      * intros [= <-]. simpl. f_equal. by apply IH.
      * destruct fa as [|a' fa'']; [done|]. simpl. intros [= -> Hrest].
        apply IH in Hrest. by injection Hrest as ->.
    + split; [done|]. destruct fa as [|a' fa'']; [done|]. simpl.
      intros [= -> Hrest]. by apply IH in Hrest.
  - split; [done|]. by destruct fa.
Qed.

Lemma gather_raise (llm_tasks : list (result string)) :
  is_raise (gather llm_tasks) ↔ ∃ t, t ∈ llm_tasks ∧ is_raise t.
Proof.
  induction llm_tasks as [|[a|e] rest IH]; simpl.
  - split; [done|]. intros (t & Hin & _). by apply elem_of_nil in Hin.
  - destruct (gather rest) as [fa'|e'] eqn:Hg; simpl in *.
    + split; [done|]. intros (t & Hin & Ht).
      apply elem_of_cons in Hin as [->|Hin]; [done|]. apply IH. eauto.
    + split; [|done]. intros _. destruct IH as [(t & Hin & Ht) _]; [done|].
      exists t. split; [by right|done].
  - split; [|done]. intros _. exists (Raise e). split; [left|done].
Qed.

Lemma unit_outcome_raise (self : FAISSManager) (question : string) :
  is_raise (retrieve self question) → is_raise (unit_outcome self question).
Proof. unfold unit_outcome. by destruct (retrieve self question). Qed.

Lemma prepare_tasks_cons (question : string) (rest : list string) (w : World) :
  prepare_tasks (question :: rest) w =
  match get_embeddings [question] with
  | [] => (Raise IndexError, called w [EvEmbed [question]])
  | query_embedding_single :: _ =>
      match search (faiss_manager w) query_embedding_single TOP_K_RETRIEVAL with
      | Raise e =>
          (Raise e, called w [EvEmbed [question]; EvSearch TOP_K_RETRIEVAL])
      | Ok search_results =>
          match prepare_tasks rest (called w (turn_calls question search_results)) with
          | (Ok llm_tasks, w') =>
              (Ok (turn_task question search_results :: llm_tasks), w')
          | (Raise e, w') => (Raise e, w')
          end
      end
  end.
Proof.
  cbn [prepare_tasks]. run_unfold. cbn -[search prepare_tasks].
  destruct (get_embeddings [question]) as [|query_embedding_single ?]; [done|].
  cbn -[search prepare_tasks].
  destruct (search _ _ _) as [[|r rs]|e]; cbn -[search prepare_tasks].
  - rewrite <- app_assoc. cbn [app].
    by destruct (prepare_tasks rest _) as [[?|?] ?].
  - rewrite <- !app_assoc. cbn [app].
    by destruct (prepare_tasks rest _) as [[?|?] ?].
  - by rewrite <- app_assoc.
Qed.

Lemma turn_task_outcome (self : FAISSManager) (question : string)
    query_embedding_single others search_results :
  get_embeddings [question] = query_embedding_single :: others →
  search self query_embedding_single TOP_K_RETRIEVAL = Ok search_results →
  retrieve self question = Ok (text <$> search_results)
  ∧ unit_outcome self question = turn_task question search_results.
Proof.
  intros Hemb Hsearch. unfold unit_outcome, retrieve. rewrite Hemb, Hsearch.
  split; [done|]. by destruct search_results.
Qed.

(** What the loop over the questions does: it leaves the manager alone;
    it calls the generator only for a question with contexts, and with
    them; it raises when a retrieval raises and otherwise hands back the
    outcome of every unit, in the order of the questions. *)
Lemma prepare_tasks_spec (questions : list string) (w : World) :
  ∃ evs,
    (prepare_tasks questions w).2 = called w evs
    ∧ (∀ question contexts,
         EvGenerate question contexts ∈ evs →
         question ∈ questions
         ∧ retrieve (faiss_manager w) question = Ok contexts ∧ contexts ≠ [])
    ∧ ((∀ question, question ∈ questions →
          ¬ is_raise (retrieve (faiss_manager w) question)) →
       (prepare_tasks questions w).1
       = Ok (unit_outcome (faiss_manager w) <$> questions))
    ∧ ((∃ question, question ∈ questions
          ∧ is_raise (retrieve (faiss_manager w) question)) →
       is_raise (prepare_tasks questions w).1).
Proof.
  revert w. induction questions as [|question rest IH]; intros w.
  { exists []. rewrite called_nil. split_and!; try done.
    - intros ?? Hin. by apply elem_of_nil in Hin.
    - intros (? & Hin & _). by apply elem_of_nil in Hin. }
  rewrite prepare_tasks_cons.
  destruct (get_embeddings [question]) as [|query_embedding_single others] eqn:Hemb.
  { assert (is_raise (retrieve (faiss_manager w) question)) as Hr.
    { unfold retrieve. by rewrite Hemb. }
    eexists. split; [reflexivity|]. split_and!.
    - intros ?? Hin. by apply list_elem_of_singleton in Hin.
    - intros Hall. destruct (Hall question); [left|done].
    - done. }
  destruct (search (faiss_manager w) query_embedding_single TOP_K_RETRIEVAL)
    as [search_results|e] eqn:Hsearch.
  2:{ assert (is_raise (retrieve (faiss_manager w) question)) as Hr.
      { unfold retrieve. by rewrite Hemb, Hsearch. }
      eexists. split; [reflexivity|]. split_and!.
      - intros ?? Hin. rewrite !elem_of_cons in Hin.
        destruct Hin as [?|[?|Hin]]; try done. by apply elem_of_nil in Hin.
      - intros Hall. destruct (Hall question); [left|done].
      - done. }
  destruct (turn_task_outcome _ _ _ _ _ Hemb Hsearch) as [Hretr Hout].
  destruct (IH (called w (turn_calls question search_results)))
    as (evs & Hw & Hgen & Hok & Hraise).
  cbn [called faiss_manager] in Hgen, Hok, Hraise.
  exists (turn_calls question search_results ++ evs).
  rewrite <- called_app. split_and!.
  - by destruct (prepare_tasks rest _) as [[?|?] ?].
  - intros q c [Hin|Hin]%elem_of_app.
    + unfold turn_calls in Hin. apply elem_of_app in Hin as [Hin|Hin].
      { rewrite !elem_of_cons in Hin.
        destruct Hin as [?|[?|Hin]]; try done. by apply elem_of_nil in Hin. }
      destruct search_results as [|r rs]; [by apply elem_of_nil in Hin|].
      apply list_elem_of_singleton in Hin. injection Hin as -> ->.
      split_and!; [left|done|done].
    + destruct (Hgen q c Hin) as (? & ? & ?). split_and!; [by right|done|done].
  - intros Hall. rewrite fmap_cons, Hout.
    assert (Hrest : (prepare_tasks rest (called w (turn_calls question search_results))).1
              = Ok (unit_outcome (faiss_manager w) <$> rest)).
    { apply Hok. intros; apply Hall; by right. }
    destruct (prepare_tasks rest _) as [[?|?] ?]; simpl in *; by simplify_eq.
  - intros (q & [->|Hin]%elem_of_cons & Hq); [by rewrite Hretr in Hq|].
    destruct (prepare_tasks rest _) as [[?|?] ?]; simpl in *; [|done].
    apply Hraise. eauto.
Qed.


Lemma answer_questions_eq (questions : list string) (w : World) :
  answer_questions questions w =
  match prepare_tasks questions w with
  | (Ok llm_tasks, w') => (gather llm_tasks, w')
  | (Raise e, w') => (Raise e, w')
  end.
Proof. reflexivity. Qed.

Lemma outcomes_ok (self : FAISSManager) (questions answers : list string) :
  unit_outcome self <$> questions = Ok <$> answers
  ↔ Forall2 (λ question answer, unit_outcome self question = Ok answer)
            questions answers.
Proof.
  by rewrite list_eq_Forall2, Forall2_fmap.
Qed.

(** The batch as a whole. *)
Lemma answer_questions_spec (questions : list string) (w : World) :
  ∃ evs,
    (answer_questions questions w).2 = called w evs
    ∧ (∀ question contexts,
         EvGenerate question contexts ∈ evs →
         question ∈ questions
         ∧ retrieve (faiss_manager w) question = Ok contexts ∧ contexts ≠ [])
    ∧ (∀ answers,
         (answer_questions questions w).1 = Ok answers
         ↔ Forall2 (λ question answer,
                      unit_outcome (faiss_manager w) question = Ok answer)
                   questions answers)
    ∧ ((∃ question, question ∈ questions
          ∧ is_raise (unit_outcome (faiss_manager w) question)) →
       is_raise (answer_questions questions w).1).
Proof.
  destruct (prepare_tasks_spec questions w) as (evs & Hw & Hgen & Hok & Hraise).
  exists evs. rewrite answer_questions_eq.
  destruct (Forall_Exists_dec
              (λ q, ¬ is_raise (retrieve (faiss_manager w) q))
              (λ q, is_raise (retrieve (faiss_manager w) q))
              (λ q, match decide (is_raise (retrieve (faiss_manager w) q)) with
                    | left H => right H | right H => left H end)
              questions) as [Hall|Hex].
  - rewrite Forall_forall in Hall. specialize (Hok Hall).
    destruct (prepare_tasks questions w) as [[llm_tasks|e] w']; simpl in *;
      [|done]. injection Hok as ->. split_and!; try done.
    + intros answers. by rewrite gather_ok, outcomes_ok.
    + intros (q & Hin & Hq). apply gather_raise.
      exists (unit_outcome (faiss_manager w) q). split; [|done].
      by apply list_elem_of_fmap_2.
  - apply Exists_exists in Hex. specialize (Hraise Hex).
    destruct (prepare_tasks questions w) as [[llm_tasks|e] w']; simpl in *;
      [done|]. split_and!; try done.
    intros answers. split; [done|]. intros Hall. exfalso.
    destruct Hex as (q & Hin & Hq). apply unit_outcome_raise in Hq.
    apply list_elem_of_lookup_1 in Hin as [i Hi].
    destruct (Forall2_lookup_l _ _ _ _ _ Hall Hi) as (a & _ & Ha).
    by rewrite Ha in Hq.
Qed.

Lemma after_auth_eq (payload : RunRequest) (w : World) :
  after_auth payload w =
  match ingest (documents payload) w with
  | (Ok _, w1) =>
      match answer_questions (questions payload) w1 with
      | (Ok final_answers, w2) => (Ok {| answers := final_answers |}, w2)
      | (Raise e, w2) => (Raise e, w2)
      end
  | (Raise e, w1) => (Raise e, w1)
  end.
Proof.
  unfold after_auth. run_unfold.
  destruct (ingest (documents payload) w) as [[[]|e] w1]; [|done].
  by destruct (answer_questions (questions payload) w1) as [[?|?] ?].
Qed.

Lemma ingest_calls (document_url : string) (w : World) :
  ∃ evs, calls (ingest document_url w).2
         = calls w ++ EvExtract document_url :: evs.
Proof.
  destruct (ingest_cases document_url w)
    as [(_ & ->)|[(t & _ & _ & _ & ->)|(t & _ & _ & _ & ->)]]; by eexists.
Qed.

Lemma after_auth_calls (payload : RunRequest) (w : World) :
  ∃ evs, calls (after_auth payload w).2
         = calls w ++ EvExtract (documents payload) :: evs.
Proof.
  rewrite after_auth_eq.
  destruct (ingest_calls (documents payload) w) as [evs Hevs].
  destruct (ingest (documents payload) w) as [[[]|e] w1]; simpl in Hevs;
    [|by exists evs].
  destruct (answer_questions_spec (questions payload) w1) as (evs' & Hw & _).
  destruct (answer_questions (questions payload) w1) as [[?|?] w2];
    simpl in *; subst w2; exists (evs ++ evs'); simpl;
    by rewrite Hevs, <- app_assoc.
Qed.


Lemma indexed_fresh (self : FAISSManager) (text_chunks : list string) :
  indexed self text_chunks = indexed (new (d (_index self))) text_chunks.
Proof. reflexivity. Qed.

Lemma indexed_texts (self : FAISSManager) (text_chunks : list string) :
  _texts (indexed self text_chunks).2 ⊆ text_chunks.
Proof.
  unfold indexed.
  destruct (add_documents_cases (reset_index self) (get_embeddings text_chunks)
              text_chunks None)
    as [(_ & ->)|[(_ & _ & _ & ->)|[(_ & _ & _ & _ & e & ->)
       |[(_ & _ & _ & _ & m & ms & ? & _)|(_ & _ & _ & _ & _ & ->)]]]];
    simpl; try done; apply list_subseteq_nil.
Qed.

(** *** The properties of the specification *)

(** C8.  A request whose [Authorization] header is absent, malformed, of
    another scheme or with another token than the configured secret is
    answered 401, and nothing else happens: no collaborator is called and
    the index is untouched.  A request with the bearer scheme and the
    secret passes the check and the handler goes on, its next step being
    the extraction of the document; the header made of the scheme, one
    space and a secret without space is such a request.  Every header is of
    one of these kinds. *)
Theorem bearer_check (auth_header : option string) (payload : RunRequest) (w : World) :
  (absent auth_header ∨ malformed auth_header
   ∨ wrong_scheme auth_header ∨ mismatched auth_header →
   ∃ detail,
     run_hackrx_submission auth_header payload w
     = (Raise (HTTPException HTTP_401_UNAUTHORIZED detail), w)
     ∧ response_status (run_hackrx_submission auth_header payload w).1 = 401)
  ∧ (well_authorized auth_header →
     authenticate auth_header w = (Ok tt, w)
     ∧ run_hackrx_submission auth_header payload w = after_auth payload w
     ∧ ∃ evs, calls (run_hackrx_submission auth_header payload w).2
              = calls w ++ EvExtract (documents payload) :: evs)
  ∧ (∀ scheme,
       Py.lower scheme = "bearer" → no_space REQUIRED_AUTH_TOKEN →
       auth_header = Some (scheme +:+ " " +:+ REQUIRED_AUTH_TOKEN) →
       well_authorized auth_header)
  ∧ (well_authorized auth_header
     ∨ absent auth_header ∨ malformed auth_header
     ∨ wrong_scheme auth_header ∨ mismatched auth_header).
Proof.
  split_and!.
  - intros Hbad. destruct (authenticate_rejects _ w Hbad) as [detail Hauth].
    exists detail. by rewrite (run_rejected _ _ _ _ Hauth).
  - intros Hgood. pose proof (authenticate_accepts _ w Hgood) as Hauth.
    rewrite (run_accepted _ _ _ Hauth). split_and!; try done.
    apply after_auth_calls.
  - intros scheme Hs Hsecret ->. by apply literal_header_well_authorized.
  - apply header_kinds.
Qed.

(** C10.  A request that passes the bearer check and whose document yields
    no text, only whitespace, or no chunk is answered 400 with the index
    as it was: the manager is unchanged, every search answers as before,
    and neither the reset nor the indexing of chunks has been called. *)
Theorem rejected_before_indexing (auth_header : option string)
    (payload : RunRequest) (w : World) :
  well_authorized auth_header →
  unindexable (documents payload) →
  ∃ detail evs,
    run_hackrx_submission auth_header payload w
    = (Raise (HTTPException HTTP_400_BAD_REQUEST detail), called w evs)
    ∧ response_status (run_hackrx_submission auth_header payload w).1 = 400
    ∧ faiss_manager (run_hackrx_submission auth_header payload w).2
      = faiss_manager w
    ∧ (∀ query k,
         search (faiss_manager (run_hackrx_submission auth_header payload w).2)
                query k
         = search (faiss_manager w) query k)
    ∧ (EvReset ∉ evs) ∧ (∀ texts, EvAdd texts ∉ evs).
Proof.
  intros Hgood Hbad.
  rewrite (run_accepted _ _ _ (authenticate_accepts _ w Hgood)), after_auth_eq.
  destruct (ingest_cases (documents payload) w)
    as [(_ & ->)|[(t & _ & _ & _ & ->)|(t & Hx & Hnb & Hchunks & _)]].
  - eexists _, [EvExtract (documents payload)]. split_and!; try done.
    + by intros ?%list_elem_of_singleton.
    + by intros texts ?%list_elem_of_singleton.
  - eexists _, [EvExtract (documents payload); EvSplit t]. split_and!; try done.
    + rewrite !elem_of_cons. intros [?|[?|?%elem_of_nil]]; done.
    + intros texts. rewrite !elem_of_cons. intros [?|[?|?%elem_of_nil]]; done.
  - exfalso. destruct Hbad as [Hn|[(t' & Hx' & Hws)|(t' & Hx' & Hc)]];
      rewrite Hx in *; simplify_eq; done.
Qed.

(** C4 (amended).  When the document has text and chunks, the ingestion
    calls, in this order and once each: the extraction, the splitter, the
    embedding model on all chunks at once, the reset of the index, the
    indexing of the chunks.  The indexing works on the manager the reset
    has left, which holds nothing. *)
Theorem ingestion_steps (document_url document_text : string) (w : World) :
  extract_text_from_document document_url = Some document_text →
  ¬ whitespace_only document_text →
  chunks_of document_text ≠ [] →
  let text_chunks := chunks_of document_text in
  let evs := [EvExtract document_url; EvSplit document_text;
              EvEmbed text_chunks; EvReset; EvAdd text_chunks] in
  let after_reset := reset_index (faiss_manager w) in
  calls (ingest document_url w).2 = calls w ++ evs
  ∧ before is_split is_embed evs ∧ before is_embed is_reset evs
  ∧ before is_reset is_add evs
  ∧ filter is_embed evs = [EvEmbed text_chunks]
  ∧ ntotal (_index after_reset) = 0%nat
  ∧ (∀ query k, search after_reset query k = Ok [])
  ∧ (ingest document_url w).1
    = (add_documents after_reset (get_embeddings text_chunks) text_chunks None).1
  ∧ faiss_manager (ingest document_url w).2
    = (add_documents after_reset (get_embeddings text_chunks) text_chunks None).2.
Proof.
  intros Hx Hnb Hchunks text_chunks evs after_reset.
  destruct (ingest_cases document_url w)
    as [([Hn|(t & Hx' & Hws)] & _)|[(t & Hx' & _ & Hc & _)|(t & Hx' & _ & _ & ->)]];
    rewrite Hx in *; simplify_eq.
  split_and!; try done.
  - exists 1%nat, 2%nat. split_and!; [done|done|lia].
  - exists 2%nat, 3%nat. split_and!; [done|done|lia].
  - exists 3%nat, 4%nat. split_and!; [done|done|lia].
Qed.

(** C6.  After [reset_index] the index holds no row, no text and no
    metadata, and every search returns the empty list.  When a document B
    is ingested after a document A, the manager is the one B alone leaves
    in a new index of that dimension: its texts are chunks of B, and so is
    every text a search returns. *)
Theorem reset_isolates :
  (∀ self : FAISSManager,
      ntotal (_index (reset_index self)) = 0%nat
      ∧ _texts (reset_index self) = []
      ∧ _metadatas (reset_index self) = []
      ∧ ∀ query k, search (reset_index self) query k = Ok [])
  ∧ (∀ (url_a url_b : string) (w w_b : World),
       ingest url_b (ingest url_a w).2 = (Ok tt, w_b) →
       ∃ text_b,
         extract_text_from_document url_b = Some text_b
         ∧ faiss_manager w_b
           = (indexed (new (d (_index (faiss_manager w)))) (chunks_of text_b)).2
         ∧ _texts (faiss_manager w_b) ⊆ chunks_of text_b
         ∧ ∀ query k results,
             search (faiss_manager w_b) query k = Ok results →
             Forall (λ r, text r ∈ chunks_of text_b) results).
Proof.
  split; [done|].
  intros url_a url_b w w_b Hb.
  destruct (ingest_cases url_b (ingest url_a w).2)
    as [(_ & Hr)|[(t & _ & _ & _ & Hr)|(t & Hx & _ & _ & Hr)]];
    rewrite Hr in Hb; [done|done|].
  injection Hb as Hok <-. exists t. cbn [faiss_manager].
  assert (d (_index (faiss_manager (ingest url_a w).2))
          = d (_index (faiss_manager w))) as Hd.
  { destruct (ingest_cases url_a w)
      as [(_ & ->)|[(ta & _ & _ & _ & ->)|(ta & _ & _ & _ & ->)]]; try done.
    cbn [snd faiss_manager]. unfold indexed.
    destruct (add_documents_cases (reset_index (faiss_manager w))
                (get_embeddings (chunks_of ta)) (chunks_of ta) None)
      as [(_ & ->)|[(_ & _ & _ & ->)|[(_ & _ & _ & _ & e & ->)
         |[(_ & _ & _ & _ & m & ms & _ & _ & ->)|(_ & _ & _ & _ & _ & ->)]]]];
      done. }
  rewrite indexed_fresh, Hd. split_and!; try done.
  - apply indexed_texts.
  - intros query k results Hs. apply search_stored in Hs.
    eapply Forall_impl; [exact Hs|]. intros r Hr'. simpl in Hr'.
    by apply (indexed_texts (new (d (_index (faiss_manager w))))).
Qed.


(** C2.  The batch returns a list of answers exactly when every unit has
    an answer, and then the list has one answer per question, in the order
    of the questions, each the outcome of the unit of its question.  A
    question whose retrieval finds no context is answered
    ["Information for '<question>' not found in document."], and the
    generator is not called for it. *)
Theorem answers_in_order (questions : list string) (w : World) :
  let self := faiss_manager w in
  ∃ evs,
    (answer_questions questions w).2 = called w evs
    ∧ (∀ answers,
         (answer_questions questions w).1 = Ok answers
         ↔ Forall2 (λ question answer, unit_outcome self question = Ok answer)
                   questions answers)
    ∧ (∀ answers,
         (answer_questions questions w).1 = Ok answers →
         length answers = length questions
         ∧ ∀ i question,
             questions !! i = Some question →
             retrieve self question = Ok [] →
             answers !! i = Some (not_found question))
    ∧ (∀ question,
         retrieve self question = Ok [] →
         unit_outcome self question
         = Ok ("Information for '" +:+ question +:+ "' not found in document.")
         ∧ ∀ contexts, EvGenerate question contexts ∉ evs).
Proof.
  intros self.
  destruct (answer_questions_spec questions w) as (evs & Hw & Hgen & Hiff & _).
  exists evs. split_and!; try done.
  - intros answers Hok%Hiff. split.
    + symmetry. by eapply Forall2_length.
    + intros i question Hi Hempty.
      destruct (Forall2_lookup_l _ _ _ _ _ Hok Hi) as (a & Ha & Hout).
      unfold unit_outcome in Hout. fold self in Hout.
      rewrite Hempty in Hout. by simplify_eq.
  - intros question Hempty. split.
    + unfold unit_outcome. by rewrite Hempty.
    + intros contexts Hin. destruct (Hgen _ _ Hin) as (_ & Hr & Hne).
      fold self in Hr. rewrite Hempty in Hr. by simplify_eq.
Qed.

Lemma unit_outcome_generation (self : FAISSManager) (question : string) :
  (is_raise (retrieve self question)
   ∨ ∃ contexts, retrieve self question = Ok contexts ∧ contexts ≠ []
                 ∧ is_raise (generate_answer question contexts))
  → is_raise (unit_outcome self question).
Proof.
  intros [Hr|(contexts & Hr & Hne & Hg)]; [by apply unit_outcome_raise|].
  unfold unit_outcome. rewrite Hr. by destruct contexts.
Qed.

(** C9.  When the unit of one question of the batch fails, in its
    retrieval or in the generator, the batch fails: the gathering raises,
    the handler raises and returns no response, hence no list of
    answers, partial or not. *)
Theorem fail_fast (auth_header : option string) (payload : RunRequest)
    (w w1 : World) :
  well_authorized auth_header →
  ingest (documents payload) w = (Ok tt, w1) →
  (∃ question,
      question ∈ questions payload
      ∧ (is_raise (retrieve (faiss_manager w1) question)
         ∨ ∃ contexts,
             retrieve (faiss_manager w1) question = Ok contexts
             ∧ contexts ≠ []
             ∧ is_raise (generate_answer question contexts))) →
  is_raise (answer_questions (questions payload) w1).1
  ∧ is_raise (run_hackrx_submission auth_header payload w).1
  ∧ ∀ response, (run_hackrx_submission auth_header payload w).1 ≠ Ok response.
Proof.
  intros Hgood Hingest (question & Hin & Hfail).
  apply unit_outcome_generation in Hfail.
  destruct (answer_questions_spec (questions payload) w1) as (_ & _ & _ & _ & Hr).
  assert (is_raise (answer_questions (questions payload) w1).1) as Hraise.
  { apply Hr. eauto. }
  rewrite (run_accepted _ _ _ (authenticate_accepts _ w Hgood)), after_auth_eq,
    Hingest.
  destruct (answer_questions (questions payload) w1) as [[?|?] ?]; done.
Qed.

End HandlerFacts.

(** ** Search over a lawful index *)

Section SearchFacts.
Context `{FI : FlatIndex}.

Lemma collect_results_padding (self : FAISSManager) distances (n i : nat) :
  collect_results self distances i (replicate n (-1)) = Ok [].
Proof. revert i. induction n as [|n IH]; intros i; simpl; [done|apply IH]. Qed.

Lemma entry_at_stored (self : FAISSManager) (query : vector) (l : nat) dl :
  consistent self →
  dist_to (xb (_index self)) query l = Some dl →
  ∃ r, entry_at self query l = Some r ∧ distance r = dl
       ∧ _texts self !! l = Some (text r)
       ∧ _metadatas self !! l = Some (metadata r).
Proof.
  intros (Ht & Hm & _) Hd. unfold dist_to in Hd.
  destruct (xb (_index self) !! l) as [row|] eqn:Hrow; [|done].
  injection Hd as <-. apply lookup_lt_Some in Hrow as Hlt. unfold ntotal in *.
  destruct (lookup_lt_is_Some_2 (_texts self) l) as [t Htext]; [lia|].
  destruct (lookup_lt_is_Some_2 (_metadatas self) l) as [md Hmeta]; [lia|].
  eexists. unfold entry_at. rewrite Htext, Hmeta, Hrow. simpl. by split_and!.
Qed.

(** The loop of [search] over what a lawful index returns: one entry per
    label, in the order of the labels. *)
Lemma collect_results_labels (self : FAISSManager) (query : vector)
    (labels : list nat) (ds pad : list dist) (n : nat) :
  consistent self →
  Forall2 (λ l dl, dist_to (xb (_index self)) query l = Some dl) labels ds →
  ∀ pre,
    ∃ results,
      collect_results self (pre ++ ds ++ pad) (length pre)
        ((Z.of_nat <$> labels) ++ replicate n (-1)) = Ok results
      ∧ Forall2 (λ l r, entry_at self query l = Some r) labels results
      ∧ distance <$> results = ds.
Proof.
  intros Hcons Hall. induction Hall as [|l dl labels ds Hd Hall IH]; intros pre.
  - exists []. simpl. by rewrite collect_results_padding.
  - destruct (entry_at_stored self query l dl Hcons Hd)
      as (r & Hentry & Hdist & Htext & Hmeta).
    destruct (IH (pre ++ [dl])) as (results & Hres & Hlab & Hds).
    rewrite length_app, Nat.add_1_r, <- app_assoc in Hres. simpl in Hres.
    exists (r :: results). rewrite !fmap_cons. cbn [app collect_results].
    destruct (Z.eqb_spec (Z.of_nat l) (-1)) as [?|_]; [lia|].
    rewrite !index_of_nat, Htext, Hmeta.
    destruct (Z.ltb_spec (Z.of_nat l) (Z.of_nat (length (_metadatas self))))
      as [_|Hge].
    2:{ apply lookup_lt_Some in Hmeta. lia. }
    rewrite list_lookup_middle by done. rewrite Hres.
    split_and!.
    + destruct r. simpl in *. by subst.
    + by constructor.
    + by rewrite Hdist, Hds.
Qed.

Lemma filter_labels (labels : list nat) (n : nat) :
  filter (λ idx, idx ≠ -1) ((Z.of_nat <$> labels) ++ replicate n (-1))
  = Z.of_nat <$> labels.
Proof.
  induction labels as [|l labels IH].
  - induction n as [|n IH]; [done|].
    cbn [fmap list_fmap app replicate] in *.
    rewrite filter_cons_False; [done|]. by intros Hne.
  - rewrite fmap_cons. cbn [app]. rewrite filter_cons_True by lia.
    by rewrite IH.
Qed.

(** [search] on a non-empty manager over a lawful index. *)
Lemma search_lawful (self : FAISSManager) (query : vector) (k : Z) :
  knn_contract → consistent self →
  length query = d (_index self) → 0 < k →
  ntotal (_index self) ≠ 0%nat →
  ∃ (labels : list nat) (distances : list dist) (indices : list Z)
    (results : list SearchResult),
    index_search (_index self) query k = Ok (distances, indices)
    ∧ filter (λ idx, idx ≠ -1) indices = Z.of_nat <$> labels
    ∧ search self query k = Ok results
    ∧ Forall2 (λ l r, entry_at self query l = Some r) labels results
    ∧ length labels = Nat.min (Z.to_nat k) (ntotal (_index self))
    ∧ NoDup labels
    ∧ StronglySorted dist_le (distance <$> results)
    ∧ (∀ l r, entry_at self query l = Some r → l ∉ labels →
              Forall (λ r', dist_le (distance r') (distance r)) results).
Proof.
  intros Hknn Hcons Hdim Hk Hne.
  destruct (Hknn (xb (_index self)) query k Hk)
    as (labels & ds & pad & Hs & Hlen & Hpad & Hnd & Hd & Hsorted & Hnear).
  { destruct Hcons as (_ & _ & Hrows). by rewrite Hdim. }
  destruct (collect_results_labels self query labels ds pad (length pad)
              Hcons Hd []) as (results & Hres & Hlab & Hds).
  simpl in Hres.
  exists labels, (ds ++ pad), ((Z.of_nat <$> labels) ++ replicate (length pad) (-1)),
    results.
  unfold search, index_search.
  destruct (Nat.eqb_spec (ntotal (_index self)) 0) as [?|_]; [done|].
  rewrite Hs. split_and!; try done.
  - apply filter_labels.
  - by rewrite Hds.
  - intros l r Hentry Hnot. rewrite <- Hds in Hnear.
    unfold entry_at in Hentry.
    destruct (_texts self !! l) as [t|]; [|done].
    destruct (_metadatas self !! l) as [md|]; [|done]. simpl in Hentry.
    destruct (xb (_index self) !! l) as [row|] eqn:Hrow; [|done].
    injection Hentry as <-. simpl.
    specialize (Hnear l (L2sqr query row)).
    rewrite Forall_fmap in Hnear. apply Hnear; [|done].
    unfold dist_to. by rewrite Hrow.
Qed.

Lemma labels_cover (labels : list nat) (n : nat) :
  NoDup labels → Forall (λ l, l < n)%nat labels → (n ≤ length labels)%nat →
  ∀ l, (l < n)%nat → l ∈ labels.
Proof.
  intros Hnd Hlt Hlen l Hl. apply list_elem_of_In.
  apply (NoDup_length_incl (l := labels) (l' := seq 0 n)).
  - by apply NoDup_ListNoDup.
  - by rewrite length_seq.
  - intros x Hx. apply in_seq. rewrite Forall_forall in Hlt.
    apply list_elem_of_In, Hlt in Hx. lia.
  - apply in_seq. lia.
Qed.


Lemma entry_at_lt (self : FAISSManager) (query : vector) (l : nat) r :
  entry_at self query l = Some r → (l < ntotal (_index self))%nat.
Proof.
  unfold entry_at, ntotal. intros Hentry.
  destruct (_texts self !! l); [|done].
  destruct (_metadatas self !! l); [|done]. simpl in Hentry.
  destruct (xb (_index self) !! l) eqn:Hrow; [|done].
  by apply lookup_lt_Some in Hrow.
Qed.

(** C5 (amended).  Over an index that keeps the contract of the flat index, on a
    manager whose counts agree and for a query of the index's dimension:
    on an empty index [search] returns the empty list, for every [k] and
    without error; for [k >= 1] it returns exactly [min M k] results, [M]
    the number of stored entries, in non-decreasing distance, each a
    stored entry of its own label; and when [k] is at least [M], every
    stored entry is among them. *)
Theorem search_count (self : FAISSManager) (query : vector) :
  knn_contract → consistent self → length query = d (_index self) →
  (ntotal (_index self) = 0%nat → ∀ k, search self query k = Ok [])
  ∧ (∀ k, 0 < k →
       ∃ results,
         search self query k = Ok results
         ∧ length results = Nat.min (ntotal (_index self)) (Z.to_nat k)
         ∧ StronglySorted dist_le (distance <$> results)
         ∧ (∃ labels,
              NoDup labels
              ∧ Forall2 (λ l r, entry_at self query l = Some r) labels results)
         ∧ ((ntotal (_index self) ≤ Z.to_nat k)%nat →
            ∀ l r, entry_at self query l = Some r → r ∈ results)).
Proof.
  intros Hknn Hcons Hdim. split; [intros; by apply search_empty|].
  intros k Hk.
  destruct (decide (ntotal (_index self) = 0%nat)) as [Hz|Hnz].
  { exists []. rewrite search_empty, Hz by done.
    split_and!;
      first [done | by constructor | by exists []; split; constructor
            | intros _ l r Hl%entry_at_lt; lia]. }
  destruct (search_lawful self query k Hknn Hcons Hdim Hk Hnz)
    as (labels & distances & indices & results
        & _ & _ & Hs & Hlab & Hlen & Hnd & Hsorted & _).
  exists results. split_and!; try done.
  - rewrite <- (Forall2_length _ _ _ Hlab), Hlen. lia.
  - by exists labels.
  - intros Hall l r Hentry.
    assert (l ∈ labels) as [i Hi]%list_elem_of_lookup_1.
    { apply (labels_cover labels (ntotal (_index self))); try done.
      - apply Forall_forall. intros l' [i Hi]%list_elem_of_lookup_1.
        destruct (Forall2_lookup_l _ _ _ _ _ Hlab Hi) as (r' & _ & Hr').
        by eapply entry_at_lt.
      - lia.
      - by eapply entry_at_lt. }
    destruct (Forall2_lookup_l _ _ _ _ _ Hlab Hi) as (r' & Hr' & Hentry').
    rewrite Hentry in Hentry'. injection Hentry' as <-.
    by eapply list_elem_of_lookup_2.
Qed.



End SearchFacts.

(** ** The reference instance keeps the contract *)

Module ReferenceFacts.
Import Reference.

Lemma candidates_labels (rows : list (list Z)) (query : list Z) :
  (candidates rows query).*2 = seq 0 (length rows).
Proof.
  apply list_eq. intros i. unfold candidates.
  rewrite list_lookup_fmap, list_lookup_imap.
  destruct (rows !! i) as [v|] eqn:Hv; simpl; symmetry.
  - apply lookup_seq. split; [done|]. by eapply lookup_lt_Some.
  - apply lookup_seq_ge. by apply lookup_ge_None.
Qed.

Lemma candidates_dist (rows : list (list Z)) (query : list Z) (p : Z * nat) :
  p ∈ candidates rows query ↔ dist_to rows query p.2 = Some p.1.
Proof.
  unfold candidates, dist_to. rewrite elem_of_lookup_imap. destruct p as [dl l].
  simpl. split.
  - intros (i & v & [= -> ->] & Hv). by rewrite Hv.
  - destruct (rows !! l) as [v|] eqn:Hv; [|done]. intros [= <-]. by exists l, v.
Qed.

Section Order.
Context (R : relation (Z * nat)) `{!RelDecision R}.
Context `{!Transitive R, !Total R}.
Hypothesis R_nearer : ∀ a b, R a b → a.1 ≤ b.1.

(** Exhaustive search in any total order that puts nearer rows first
    keeps the contract of the flat index. *)
Lemma exhaustive_search_lawful :
  knn_contract (FI := {| knn_search := exhaustive_search R |}).
Proof.
  intros rows query k Hk _. cbn [knn_search]. unfold exhaustive_search.
  destruct (Z.ltb_spec 0 k) as [_|?]; [|lia].
  set (sorted := merge_sort R (candidates rows query)).
  set (best := take (Z.to_nat k) sorted).
  assert (Hperm : sorted ≡ₚ candidates rows query)
    by apply merge_sort_Permutation.
  assert (Hsorted : StronglySorted R sorted)
    by (apply StronglySorted_merge_sort; apply _).
  assert (Hsplit : sorted = best ++ drop (Z.to_nat k) sorted)
    by (symmetry; apply take_drop).
  assert (Hlen : length best = Nat.min (Z.to_nat k) (length rows)).
  { unfold best. rewrite length_take, Hperm. unfold candidates.
    by rewrite length_imap. }
  exists (best.*2), (best.*1),
    (replicate (Z.to_nat k - length best) FLT_MAX).
  rewrite !length_replicate, !length_fmap. split_and!; try done.
  - lia.
  - apply (sublist_NoDup _ (sorted.*2)).
    + rewrite Hperm, candidates_labels. apply NoDup_seq.
    + unfold best. rewrite fmap_take. apply sublist_take.
  - apply Forall2_fmap_2, Forall_Forall2_diag, Forall_forall.
    intros p Hp. apply candidates_dist. rewrite <- Hperm, Hsplit.
    apply elem_of_app. by left.
  - rewrite Hsplit in Hsorted. apply StronglySorted_app_1_l in Hsorted.
    eapply (StronglySorted_fmap fst R); [|exact Hsorted]. apply R_nearer.
  - intros j dj Hj Hnot. apply Forall_fmap, Forall_forall. intros p Hp.
    apply (R_nearer p (dj, j)).
    rewrite Hsplit in Hsorted.
    eapply StronglySorted_app_1_elem_of; [exact Hsorted|exact Hp|].
    assert ((dj, j) ∈ sorted) as Hin.
    { rewrite Hperm. by apply candidates_dist. }
    rewrite Hsplit in Hin at 1. apply elem_of_app in Hin as [Hin|Hin]; [|done].
    exfalso. apply Hnot. apply list_elem_of_fmap. by exists (dj, j).
Qed.

End Order.

Global Instance earlier_first_trans : Transitive earlier_first.
Proof. intros [a i] [b j] [c l]; unfold earlier_first; simpl. lia. Qed.

Global Instance earlier_first_total : Total earlier_first.
Proof. intros [a i] [b j]; unfold earlier_first; simpl. lia. Qed.

Lemma stable_index_lawful : knn_contract (FI := StableIndex).
Proof.
  apply (exhaustive_search_lawful earlier_first).
  intros a b. unfold earlier_first. lia.
Qed.



End ReferenceFacts.

(** ** The properties at concrete inputs *)

Module Examples.
Import Reference ReferenceFacts.

Lemma consistent_library : consistent library.
Proof. repeat split. repeat constructor. Qed.



(** Of two entries at the same place the one stored first is returned
    first. *)
Example search_two_equal :
  search (FI := StableIndex) two_equal [0] 2
  = Ok [ {| text := "first"; metadata := ∅; distance := 1 |};
         {| text := "second"; metadata := ∅; distance := 1 |} ].
Proof. reflexivity. Qed.

Example search_library :
  search (FI := StableIndex) library [2] 2
  = Ok [ {| text := "aa"; metadata := ∅; distance := 0 |};
         {| text := "bbb"; metadata := ∅; distance := 1 |} ].
Proof. reflexivity. Qed.

Example search_two_equal_nearest :
  search (FI := StableIndex) two_equal [0] 1
  = Ok [ {| text := "first"; metadata := ∅; distance := 1 |} ].
Proof. reflexivity. Qed.


Lemma search_count_witness :
  knn_contract (FI := StableIndex) ∧ consistent library
  ∧ length [2] = d (_index library)
  ∧ (ntotal (_index library) = 0%nat →
     ∀ k, search (FI := StableIndex) library [2] k = Ok [])
  ∧ (∀ k, 0 < k →
       ∃ results,
         search (FI := StableIndex) library [2] k = Ok results
         ∧ length results = Nat.min (ntotal (_index library)) (Z.to_nat k)
         ∧ StronglySorted dist_le (distance <$> results)
         ∧ (∃ labels,
              NoDup labels
              ∧ Forall2 (λ l r, entry_at library [2] l = Some r) labels results)
         ∧ ((ntotal (_index library) ≤ Z.to_nat k)%nat →
            ∀ l r, entry_at library [2] l = Some r → r ∈ results)).
Proof.
  assert (consistent library) as Hc by (repeat split; repeat constructor).
  split; [exact stable_index_lawful|]. split; [exact Hc|].
  split; [reflexivity|].
  apply (search_count (FI := StableIndex) library [2] stable_index_lawful Hc).
  reflexivity.
Defined.

Example search_more_than_stored :
  search (FI := StableIndex) library [2] 10
  = Ok [ {| text := "aa"; metadata := ∅; distance := 0 |};
         {| text := "bbb"; metadata := ∅; distance := 1 |};
         {| text := "c"; metadata := ∅; distance := 1 |} ].
Proof. reflexivity. Qed.

(** C5, as stated, fails: with three entries stored and [k = 0] the claim
    has [search] return [min 3 0 = 0] results; the flat index refuses
    [k = 0] and [search] raises. *)
Lemma zero_count_counterexample :
  ntotal (_index library) = 3%nat
  ∧ search (FI := StableIndex) library [2] 0
    = Raise (LibraryError "index search failed")
  ∧ ¬ counts_as_specified (FI := StableIndex) library [2] 0.
Proof.
  split; [reflexivity|]. split; [reflexivity|].
  intros (results & Hs & _). discriminate Hs.
Qed.

Lemma add_documents_spec_witness :
  consistent (new 1)
  ∧ (add_documents (new 1) [[2]; [3]; [1]] ["aa"; "bbb"; "c"] None).1 = Ok tt
  ∧ _texts library = ["aa"; "bbb"; "c"]
  ∧ _metadatas library = [∅; ∅; ∅]
  ∧ counts_agree library.
Proof.
  assert (consistent (new 1)) as Hc by (repeat split; constructor).
  split; [exact Hc|].
  destruct (add_documents_spec (H := ZMetric) (new 1) [[2]; [3]; [1]] ["aa"; "bbb"; "c"] None Hc)
    as (_ & _ & _ & _ & Happend & Hcounts).
  destruct Happend as (Hok & _ & Htexts & Hmetas);
    [discriminate|discriminate|reflexivity|repeat constructor|reflexivity|].
  split; [exact Hok|]. split; [exact Htexts|]. split; [exact Hmetas|].
  exact (proj2 (Hcounts Hok)).
Defined.

(** C7, as stated, fails: with no embedding and one text the lengths
    differ, and the call returns without error. *)
Lemma empty_guard_counterexample :
  ¬ add_as_specified (new 1) [] ["a"] None.
Proof.
  unfold add_as_specified. cbn. intros (Hraise & _).
  apply Hraise. left. simpl. lia.
Qed.

(** The metadata check of [add_documents] comes after the index and the
    texts have been extended: a call it refuses leaves one text more than
    there are metadata. *)
Remark refused_metadata_leaves_counts_apart :
  let '(r, self') := add_documents (new 1) [[1]] ["a"] (Some [∅; ∅]) in
  is_raise r ∧ length (_texts self') = 1%nat ∧ length (_metadatas self') = 0%nat.
Proof. cbn. done. Qed.

Lemma ingestion_steps_witness :
  extract_text_from_document (Collaborators := demo) "x:aa bbb c" = Some "aa bbb c"
  ∧ ¬ whitespace_only "aa bbb c"
  ∧ chunks_of (CO := demo) "aa bbb c" ≠ []
  ∧ calls (ingest (CO := demo) "x:aa bbb c" fresh).2
    = [EvExtract "x:aa bbb c"; EvSplit "aa bbb c"; EvEmbed ["aa"; "bbb"; "c"];
       EvReset; EvAdd ["aa"; "bbb"; "c"]]
  ∧ faiss_manager (ingest (CO := demo) "x:aa bbb c" fresh).2 = library.
Proof.
  assert (¬ whitespace_only "aa bbb c") as Hnb.
  { intros Hws. unfold whitespace_only in Hws. cbn in Hws.
    apply Forall_cons_1 in Hws as [Hc _]. vm_compute in Hc. discriminate Hc. }
  assert (chunks_of (CO := demo) "aa bbb c" ≠ []) as Hchunks.
  { intros Hn. vm_compute in Hn. discriminate Hn. }
  split; [reflexivity|]. split; [exact Hnb|]. split; [exact Hchunks|].
  destruct (ingestion_steps (FI := StableIndex) (CO := demo) "x:aa bbb c" "aa bbb c" fresh
              eq_refl Hnb Hchunks)
    as (Hcalls & _ & _ & _ & _ & _ & _ & _ & Hmgr).
  split; [exact Hcalls|exact Hmgr].
Defined.

(** C4, as stated, fails: in the calls of an ingestion the reset does not
    come before the splitting. *)
Lemma reset_first_counterexample :
  ¬ reset_comes_first (calls (ingest (CO := demo) "x:aa bbb c" fresh).2).
Proof.
  intros ((i & j & Hi & Hj & Hlt) & _).
  vm_compute in Hi, Hj. injection Hi as <-. injection Hj as <-. lia.
Qed.


Lemma bearer_well_authorized : well_authorized (CO := demo) bearer.
Proof. exists ("Bearer " +:+ DEFAULT_AUTH_TOKEN), "Bearer". by split_and!. Qed.

Lemma fail_fast_witness :
  let payload := {| documents := "x:aa bbb c"; questions := ["dd"; "boom"; "e"] |} in
  let w1 := (ingest (CO := demo) "x:aa bbb c" fresh).2 in
  well_authorized (CO := demo) bearer
  ∧ ingest (CO := demo) (documents payload) fresh = (Ok tt, w1)
  ∧ (∃ question,
        question ∈ questions payload
        ∧ (is_raise (retrieve (FI := StableIndex) (CO := demo)
                       (faiss_manager w1) question)
           ∨ ∃ contexts,
               retrieve (FI := StableIndex) (CO := demo)
                 (faiss_manager w1) question = Ok contexts
               ∧ contexts ≠ []
               ∧ is_raise (generate_answer (Collaborators := demo)
                             question contexts)))
  ∧ is_raise (answer_questions (FI := StableIndex) (CO := demo)
                (questions payload) w1).1
  ∧ is_raise (run_hackrx_submission (FI := StableIndex) (CO := demo)
                bearer payload fresh).1
  ∧ ∀ response,
      (run_hackrx_submission (FI := StableIndex) (CO := demo)
         bearer payload fresh).1 ≠ Ok response.
Proof.
  intros payload w1.
  assert (∃ question,
        question ∈ questions payload
        ∧ (is_raise (retrieve (FI := StableIndex) (CO := demo)
                       (faiss_manager w1) question)
           ∨ ∃ contexts,
               retrieve (FI := StableIndex) (CO := demo)
                 (faiss_manager w1) question = Ok contexts
               ∧ contexts ≠ []
               ∧ is_raise (generate_answer (Collaborators := demo)
                             question contexts))) as Hfail.
  { exists "boom". split; [right; left|].
    right. exists ["bbb"; "aa"; "c"]. split; [reflexivity|].
    split; [discriminate|exact I]. }
  split; [exact bearer_well_authorized|]. split; [reflexivity|].
  split; [exact Hfail|].
  exact (fail_fast (FI := StableIndex) (CO := demo) bearer payload fresh w1
           bearer_well_authorized eq_refl Hfail).
Defined.

Lemma rejected_before_indexing_witness :
  let payload := {| documents := "x:   "; questions := ["dd"] |} in
  let w := (ingest (CO := demo) "x:aa bbb c" fresh).2 in
  well_authorized (CO := demo) bearer
  ∧ unindexable (CO := demo) (documents payload)
  ∧ ∃ detail evs,
      run_hackrx_submission (FI := StableIndex) (CO := demo) bearer payload w
      = (Raise (HTTPException HTTP_400_BAD_REQUEST detail), called w evs)
      ∧ response_status
          (run_hackrx_submission (FI := StableIndex) (CO := demo)
             bearer payload w).1 = 400
      ∧ faiss_manager
          (run_hackrx_submission (FI := StableIndex) (CO := demo)
             bearer payload w).2 = faiss_manager w
      ∧ (∀ query k,
           search (FI := StableIndex)
             (faiss_manager
                (run_hackrx_submission (FI := StableIndex) (CO := demo)
                   bearer payload w).2) query k
           = search (FI := StableIndex) (faiss_manager w) query k)
      ∧ (EvReset ∉ evs) ∧ (∀ texts, EvAdd texts ∉ evs).
Proof.
  intros payload w.
  assert (unindexable (CO := demo) (documents payload)) as Hbad.
  { right. left. exists "   ". split; [reflexivity|].
    unfold whitespace_only. cbn. repeat constructor. }
  split; [exact bearer_well_authorized|]. split; [exact Hbad|].
  exact (rejected_before_indexing (FI := StableIndex) (CO := demo)
           bearer payload w bearer_well_authorized Hbad).
Defined.

(** Two questions against the ingested document, then the same against an
    index that holds nothing. *)
Example answers_of_two_questions :
  (run_hackrx_submission (FI := StableIndex) (CO := demo) bearer
     {| documents := "x:aa bbb c"; questions := ["dd"; "e"] |} fresh).1
  = Ok {| answers := ["answer:dd"; "answer:e"] |}.
Proof. reflexivity. Qed.

Example answers_without_context :
  (answer_questions (FI := StableIndex) (CO := demo)
     ["What is the grace period?"; "What is the capital of Mars?"] fresh)
  = (Ok ["Information for 'What is the grace period?' not found in document.";
         "Information for 'What is the capital of Mars?' not found in document."],
     called fresh
       [EvEmbed ["What is the grace period?"]; EvSearch 10;
        EvEmbed ["What is the capital of Mars?"]; EvSearch 10]).
Proof. reflexivity. Qed.

Example wrong_token_is_rejected :
  run_hackrx_submission (FI := StableIndex) (CO := demo) (Some "Bearer wrong-token")
    {| documents := "x:aa bbb c"; questions := ["dd"] |} fresh
  = (Raise (HTTPException 401 "Invalid authentication token"), fresh).
Proof. reflexivity. Qed.

Example second_document_replaces_first :
  _texts (faiss_manager
            (ingest (CO := demo) "y:dddd ee"
               (ingest (CO := demo) "x:aa bbb c" fresh).2).2)
  = ["dddd"; "ee"].
Proof. reflexivity. Qed.

End Examples.

(** * Further properties of the code *)

(** ** Python strings, continued *)

Lemma lower_app (a b : string) :
  Py.lower (a +:+ b) = Py.lower a +:+ Py.lower b.
Proof.
  induction a as [|c a IH]; [done|].
  rewrite append_cons. simpl. by rewrite IH.
Qed.

Lemma prefix_spec (p s : string) :
  Py.prefix p s = true ↔ ∃ b, s = p +:+ b.
Proof.
  revert s. induction p as [|a p IH]; intros s; simpl.
  - split; [|done]. intros _. by exists s.
  - destruct s as [|c s].
    + split; [done|]. by intros (b & ?).
    + rewrite andb_true_iff, IH. split.
      * intros [->%Ascii.eqb_eq (b & ->)]. by exists b.
      * intros (b & Hb). rewrite append_cons in Hb. injection Hb as -> ->.
        split; [apply Ascii.eqb_refl|by exists b].
Qed.

Lemma contains_spec (sub s : string) :
  Py.contains sub s = true ↔ DocumentLoader.occurs sub s.
Proof.
  unfold DocumentLoader.occurs. induction s as [|c s IH]; simpl.
  - rewrite orb_false_r, prefix_spec. split.
    + intros (b & ->). by exists "", b.
    + intros (a & b & Hs). destruct a as [|? a]; [by exists b|].
      by rewrite append_cons in Hs.
  - rewrite orb_true_iff, prefix_spec, IH. split.
    + intros [(b & ->)|(a & b & ->)]; [by exists "", b|].
      by exists (String c a), b.
    + intros (a & b & Hs). destruct a as [|c' a].
      * left. by exists b.
      * right. rewrite append_cons in Hs. injection Hs as -> ->. by exists a, b.
Qed.

Lemma lstrip_chars_decompose (l : list ascii) :
  ∃ pre, l = pre ++ Py.lstrip_chars l.
Proof.
  induction l as [|c l [pre IH]]; [by exists []|]. simpl.
  destruct (Py.isspace c).
  - exists (c :: pre). simpl. by rewrite <- IH.
  - by exists [].
Qed.

Lemma lstrip_chars_fixed (l : list ascii) :
  Py.lstrip_chars l = l ↔ l = [] ∨ ∃ c l', l = c :: l' ∧ Py.isspace c = false.
Proof.
  destruct l as [|c l]; [split; auto|]. simpl.
  destruct (Py.isspace c) eqn:Hc; split.
  - intros Heq. exfalso. destruct (lstrip_chars_decompose l) as [pre Hpre].
    apply (f_equal length) in Heq, Hpre. rewrite length_app in Hpre.
    simpl in Heq. lia.
  - intros [?|(c' & l' & [= <- <-] & ?)]; congruence.
  - intros _. right. by exists c, l.
  - done.
Qed.

Lemma lstrip_chars_idem (l : list ascii) :
  Py.lstrip_chars (Py.lstrip_chars l) = Py.lstrip_chars l.
Proof.
  apply lstrip_chars_fixed.
  destruct (Py.lstrip_chars l) as [|c l'] eqn:Hl; [by left|].
  right. exists c, l'. split; [done|]. by eapply lstrip_chars_head.
Qed.

(** The characters [strip] keeps: it removes nothing more from them. *)
Lemma strip_chars_clean (l : list ascii) :
  let r := rev (Py.lstrip_chars (rev (Py.lstrip_chars l))) in
  Py.lstrip_chars r = r ∧ Py.lstrip_chars (rev r) = rev r.
Proof.
  intros r. subst r. rewrite rev_involutive. split; [|apply lstrip_chars_idem].
  set (a := Py.lstrip_chars l).
  destruct (lstrip_chars_decompose (rev a)) as [pre Hpre].
  set (b := Py.lstrip_chars (rev a)) in *.
  assert (a = rev b ++ rev pre) as Ha.
  { rewrite <- (rev_involutive a), Hpre, rev_app_distr. done. }
  apply lstrip_chars_fixed.
  destruct (rev b) as [|c r'] eqn:Hr; [by left|]. right. exists c, r'.
  split; [done|].
  assert (Py.lstrip_chars a = a) as Hfix by apply lstrip_chars_idem.
  apply lstrip_chars_fixed in Hfix as [Hnil|(c' & l' & Hc' & Hsp)].
  - rewrite Hnil in Ha. done.
  - rewrite Ha in Hc'. simpl in Hc'. by injection Hc' as -> _.
Qed.

Lemma strip_idem (s : string) : Py.strip (Py.strip s) = Py.strip s.
Proof.
  unfold Py.strip at 1 3.
  unfold Py.strip. rewrite list_ascii_of_string_of_list_ascii.
  destruct (strip_chars_clean (list_ascii_of_string s)) as [H1 H2].
  cbv zeta in H1, H2. by rewrite H1, H2, rev_involutive.
Qed.

Lemma stripped_not_blank (s : string) :
  Py.strip s = s → s ≠ "" → ¬ whitespace_only s.
Proof. intros Hs Hne Hws%strip_empty. congruence. Qed.

Lemma join_cons (sep x : string) (l : list string) :
  l ≠ [] → Py.join sep (x :: l) = x +:+ sep +:+ Py.join sep l.
Proof. by destruct l. Qed.

(** A string is its fields joined by the separator, and no field holds the
    separator. *)
Lemma join_split (sep : ascii) (s : string) :
  Py.join (String sep "") (Py.split sep s) = s
  ∧ Forall (λ field, sep ∉ list_ascii_of_string field) (Py.split sep s)
  ∧ Py.split sep s ≠ [].
Proof.
  induction s as [|c s (Hjoin & Hall & Hne)]; simpl.
  - split_and!; [done| |done]. repeat constructor. apply not_elem_of_nil.
  - destruct (Ascii.eqb_spec c sep) as [->|Hc].
    + split_and!; [|by constructor; [apply not_elem_of_nil|]|done].
      rewrite join_cons, Hjoin by done.
      by rewrite append_nil_l, append_cons, append_nil_l.
    + destruct (Py.split sep s) as [|w ws] eqn:Hs; [done|].
      apply Forall_cons_1 in Hall as [Hw Hws].
      split_and!; [| |done].
      * destruct ws as [|w' ws']; [simpl in *; by rewrite Hjoin|].
        rewrite join_cons by done. rewrite join_cons in Hjoin by done.
        by rewrite append_cons, Hjoin.
      * constructor; [|done]. simpl. apply not_elem_of_cons. by split.
Qed.

(** ** The document loader *)

Section LoaderFacts.
Context `{LB : DocumentLoader.Libraries}.
Import DocumentLoader.

Lemma contains_false (sub s : string) :
  Py.contains sub s = false ↔ ¬ occurs sub s.
Proof.
  rewrite <- contains_spec. by destruct (Py.contains sub s).
Qed.

(** X1.  [get_document_type] goes by the first of [.pdf], [.docx], [.msg],
    [.eml], in this order, that occurs anywhere in the URL, letter case
    set aside; it answers ["unknown"] exactly when none occurs.  An
    extension written in any letter case, at any place of the URL, counts. *)
Theorem document_type_by_extension (url : string) :
  let lower_url := Py.lower url in
  (get_document_type url = "pdf" ↔ occurs ".pdf" lower_url)
  ∧ (get_document_type url = "docx"
     ↔ ¬ occurs ".pdf" lower_url ∧ occurs ".docx" lower_url)
  ∧ (get_document_type url = "msg"
     ↔ ¬ occurs ".pdf" lower_url ∧ ¬ occurs ".docx" lower_url
       ∧ occurs ".msg" lower_url)
  ∧ (get_document_type url = "eml"
     ↔ ¬ occurs ".pdf" lower_url ∧ ¬ occurs ".docx" lower_url
       ∧ ¬ occurs ".msg" lower_url ∧ occurs ".eml" lower_url)
  ∧ (get_document_type url = "unknown"
     ↔ ¬ occurs ".pdf" lower_url ∧ ¬ occurs ".docx" lower_url
       ∧ ¬ occurs ".msg" lower_url ∧ ¬ occurs ".eml" lower_url)
  ∧ (∀ a ext b,
       url = a +:+ ext +:+ b → Py.lower ext = ".pdf" →
       get_document_type url = "pdf").
Proof.
  intros lower_url.
  assert (∀ a ext b, url = a +:+ ext +:+ b → Py.lower ext = ".pdf" →
                     occurs ".pdf" lower_url) as Hany.
  { intros a ext b -> Hext. subst lower_url.
    rewrite !lower_app, Hext. by eexists _, _. }
  unfold get_document_type. fold lower_url.
  destruct (Py.contains ".pdf" lower_url) eqn:Hpdf;
    [apply contains_spec in Hpdf|apply contains_false in Hpdf].
  { split_and!; try (split; [done|]); try tauto; done. }
  destruct (Py.contains ".docx" lower_url) eqn:Hdocx;
    [apply contains_spec in Hdocx|apply contains_false in Hdocx].
  { split_and!; try (split; [done|]); try tauto; try done.
    intros a ext b Hu Hext. destruct Hpdf. eauto. }
  destruct (Py.contains ".msg" lower_url) eqn:Hmsg;
    [apply contains_spec in Hmsg|apply contains_false in Hmsg].
  { split_and!; try (split; [done|]); try tauto; try done.
    intros a ext b Hu Hext. destruct Hpdf. eauto. }
  destruct (Py.contains ".eml" lower_url) eqn:Heml;
    [apply contains_spec in Heml|apply contains_false in Heml].
  { split_and!; try (split; [done|]); try tauto; try done.
    intros a ext b Hu Hext. destruct Hpdf. eauto. }
  split_and!; try (split; [done|]); try tauto; try done.
  intros a ext b Hu Hext. destruct Hpdf. eauto.
Qed.

Lemma if_text_some (text_content t : string) :
  if_text text_content = Some t → t = text_content ∧ t ≠ "".
Proof.
  unfold if_text. destruct text_content; [done|]. by intros [= <-].
Qed.

Lemma extract_text_from_email_stripped (email_content : bytes) file_extension :
  Py.strip (extract_text_from_email email_content file_extension)
  = extract_text_from_email email_content file_extension.
Proof.
  unfold extract_text_from_email.
  destruct (String.eqb file_extension "msg"); [apply strip_idem|].
  destruct (String.eqb file_extension "eml"); [apply strip_idem|done].
Qed.

Lemma extracted_text_stripped (url t : string) :
  extract_text_from_document url = Some t → Py.strip t = t ∧ t ≠ "".
Proof.
  unfold extract_text_from_document.
  destruct (load_document_from_url url) as [content|]; [|done].
  destruct (String.eqb (get_document_type url) "pdf").
  { intros [-> ?]%if_text_some. split; [apply strip_idem|done]. }
  destruct (String.eqb (get_document_type url) "docx").
  { intros [-> ?]%if_text_some. split; [apply strip_idem|done]. }
  destruct (_ || _); [|done].
  intros [-> ?]%if_text_some. split; [apply extract_text_from_email_stripped|done].
Qed.

(** X2.  When [extract_text_from_document] returns a text, the download has
    succeeded, the type of the URL is known, and the text is not empty and
    has no whitespace at either end: the loader never hands out a blank
    text. *)
Theorem extracted_text_is_clean (url t : string) :
  extract_text_from_document url = Some t →
  (∃ document_content, load_document_from_url url = Some document_content)
  ∧ get_document_type url ≠ "unknown"
  ∧ t ≠ "" ∧ Py.strip t = t ∧ ¬ whitespace_only t.
Proof.
  intros Hx. destruct (extracted_text_stripped url t Hx) as [Hs Hne].
  split_and!; try done; [| |by apply stripped_not_blank].
  - unfold extract_text_from_document in Hx.
    destruct (load_document_from_url url) as [content|]; [by exists content|done].
  - intros Hu. unfold extract_text_from_document in Hx. rewrite Hu in Hx.
    by destruct (load_document_from_url url).
Qed.

End LoaderFacts.

(** ** The manager over sequences of calls *)

Section SingletonFacts.
Context `{FI : FlatIndex}.

Lemma consistent_sound (self : FAISSManager) : consistent self → sound self.
Proof. intros (Ht & Hm & Hd). unfold sound. rewrite Ht, Hm. by split_and!. Qed.

Lemma sound_add_documents (self : FAISSManager) embeddings texts metadatas :
  sound self →
  sound (add_documents self embeddings texts metadatas).2
  ∧ d (_index (add_documents self embeddings texts metadatas).2) = d (_index self).
Proof.
  intros (Ht & Hm & Hd).
  destruct (add_documents_cases self embeddings texts metadatas)
    as [(_ & ->)|[(_ & _ & _ & ->)|[(_ & _ & _ & _ & e & ->)
       |[(_ & _ & Hlen & Hdim & m & ms & _ & _ & ->)
        |(_ & _ & Hlen & Hdim & Hmd & ->)]]]]; try done.
  - split; [|done]. unfold sound, ntotal in *. simpl.
    rewrite !length_app. split_and!; [lia|lia|by apply Forall_app].
  - split; [|done]. unfold sound, ntotal in *. simpl.
    rewrite !length_app, Hmd. split_and!; [lia|lia|by apply Forall_app].
Qed.

Lemma sound_after_calls (dimension : nat) (calls : list Call) :
  ∀ self,
    d (_index self) = dimension → sound self →
    ∃ self', foldl step (Some self) calls = Some self'
             ∧ d (_index self') = dimension ∧ sound self'.
Proof.
  induction calls as [|call calls IH]; intros self Hd Hs; [by exists self|].
  simpl. destruct call as [dimension'|embeddings texts metadatas|]; simpl.
  - by apply IH.
  - destruct (sound_add_documents self embeddings texts metadatas Hs) as [Hs' Hd'].
    apply IH; [congruence|done].
  - apply IH; [done|]. unfold sound. simpl. split_and!; [done|lia|constructor].
Qed.

(** X4.  Whatever calls follow the first construction, be they further
    constructions with other dimensions, additions that succeed or are
    refused, or resets, there is one manager, its dimension is the one of
    the first construction, it holds one text per stored row and no more
    metadata than texts, and every row has the dimension of the index. *)
Theorem singleton_invariants (dimension : nat) (calls : list Call) :
  ∃ self,
    foldl step None (CallNew dimension :: calls) = Some self
    ∧ d (_index self) = dimension
    ∧ sound self.
Proof.
  simpl. apply sound_after_calls; [done|].
  unfold sound. simpl. split_and!; [done|lia|constructor].
Qed.

Lemma add_documents_ok_inv (self : FAISSManager) embeddings texts metadatas :
  (add_documents self embeddings texts metadatas).1 = Ok tt →
  ((embeddings = [] ∨ texts = [])
   ∧ (add_documents self embeddings texts metadatas).2 = self)
  ∨ (embeddings ≠ [] ∧ texts ≠ [] ∧ length embeddings = length texts
     ∧ Forall (λ v, length v = d (_index self)) embeddings
     ∧ length (stored_metadatas texts metadatas) = length texts
     ∧ (add_documents self embeddings texts metadatas).2
       = {| _index := {| d := d (_index self);
                         xb := xb (_index self) ++ embeddings |};
            _texts := _texts self ++ texts;
            _metadatas := _metadatas self ++ stored_metadatas texts metadatas |}).
Proof.
  destruct (add_documents_cases self embeddings texts metadatas)
    as [(? & ->)|[(_ & _ & _ & ->)|[(_ & _ & _ & _ & e & ->)
       |[(_ & _ & _ & _ & m & ms & _ & _ & ->)
        |(? & ? & ? & ? & ? & ->)]]]]; simpl; try done.
  - by left.
  - right. by split_and!.
Qed.

Lemma add_documents_ok_consistent (self : FAISSManager) embeddings texts metadatas :
  consistent self →
  (add_documents self embeddings texts metadatas).1 = Ok tt →
  consistent (add_documents self embeddings texts metadatas).2.
Proof.
  intros (Ht & Hm & Hd) [(_ & ->)|(_ & _ & Hlen & Hdim & Hmd & ->)]%add_documents_ok_inv;
    [done|].
  unfold consistent, ntotal in *. simpl.
  rewrite !length_app, Hmd. split_and!; [lia|lia|by apply Forall_app].
Qed.

(** X5.  An addition that goes through, of embeddings and texts that are
    not empty, gives the new entries the next labels in sequence, each text
    with its own embedding and metadata, and leaves every entry already
    stored under its label, as it was. *)
Theorem add_documents_appends (self : FAISSManager) (embeddings : list vector)
    (texts : list string) (metadatas : option (list metadata_dict)) :
  consistent self → embeddings ≠ [] → texts ≠ [] →
  (add_documents self embeddings texts metadatas).1 = Ok tt →
  let self' := (add_documents self embeddings texts metadatas).2 in
  ntotal (_index self') = (ntotal (_index self) + length texts)%nat
  ∧ (∀ query l,
       (l < ntotal (_index self))%nat →
       entry_at self' query l = entry_at self query l)
  ∧ (∀ query i text_,
       texts !! i = Some text_ →
       ∃ row md,
         embeddings !! i = Some row
         ∧ stored_metadatas texts metadatas !! i = Some md
         ∧ entry_at self' query (ntotal (_index self) + i)
           = Some {| text := text_; metadata := md;
                     distance := L2sqr query row |}).
Proof.
  intros (Ht & Hm & Hd) He Htx
    [([?|?] & _)|(_ & _ & Hlen & Hdim & Hmd & Heq)]%add_documents_ok_inv;
    [done|done|].
  intros self'. subst self'. rewrite Heq. unfold ntotal in *. simpl.
  split_and!.
  - rewrite length_app. lia.
  - intros query l Hl. unfold entry_at. simpl.
    by rewrite !lookup_app_l by lia.
  - intros query i text_ Hi. apply lookup_lt_Some in Hi as Hlt.
    destruct (lookup_lt_is_Some_2 embeddings i) as [row Hrow]; [lia|].
    destruct (lookup_lt_is_Some_2 (stored_metadatas texts metadatas) i)
      as [md Hmd']; [lia|].
    exists row, md. split_and!; try done. unfold entry_at. simpl.
    rewrite !lookup_app_r by lia.
    replace (length (xb (_index self)) + i - length (_texts self))%nat with i by lia.
    replace (length (xb (_index self)) + i - length (_metadatas self))%nat with i by lia.
    replace (length (xb (_index self)) + i - length (xb (_index self)))%nat with i by lia.
    by rewrite Hi, Hmd', Hrow.
Qed.

End SingletonFacts.

(** ** Search, continued *)

Section SearchMore.
Context `{FI : FlatIndex}.

(** The loop of [search] on a manager whose metadata may fall short of its
    texts. *)
Lemma collect_results_sound (self : FAISSManager) (query : vector)
    (labels : list nat) (ds pad : list dist) (n : nat) :
  sound self →
  Forall2 (λ l dl, dist_to (xb (_index self)) query l = Some dl) labels ds →
  ∀ pre,
    ∃ results,
      collect_results self (pre ++ ds ++ pad) (length pre)
        ((Z.of_nat <$> labels) ++ replicate n (-1)) = Ok results
      ∧ Forall2 (λ l r,
                   _texts self !! l = Some (text r)
                   ∧ metadata r = default ∅ (_metadatas self !! l)
                   ∧ dist_to (xb (_index self)) query l = Some (distance r))
                labels results.
Proof.
  intros (Ht & Hm & _) Hall.
  induction Hall as [|l dl labels ds Hd Hall IH]; intros pre.
  - exists []. simpl. by rewrite collect_results_padding.
  - assert (l < ntotal (_index self))%nat as Hl.
    { unfold dist_to in Hd. destruct (xb (_index self) !! l) eqn:Hrow; [|done].
      by apply lookup_lt_Some in Hrow. }
    destruct (lookup_lt_is_Some_2 (_texts self) l) as [t Htext]; [lia|].
    destruct (IH (pre ++ [dl])) as (results & Hres & Hlab).
    rewrite length_app, Nat.add_1_r, <- app_assoc in Hres. simpl in Hres.
    rewrite !fmap_cons. cbn [app collect_results].
    destruct (Z.eqb_spec (Z.of_nat l) (-1)) as [?|_]; [lia|].
    rewrite !index_of_nat, Htext.
    rewrite list_lookup_middle by done. rewrite Hres.
    destruct (Z.ltb_spec (Z.of_nat l) (Z.of_nat (length (_metadatas self))))
      as [Hlt|Hge].
    + destruct (lookup_lt_is_Some_2 (_metadatas self) l) as [md Hmeta]; [lia|].
      rewrite Hmeta. eexists. split; [done|]. constructor; [|done].
      simpl. by rewrite Hmeta.
    + assert (_metadatas self !! l = None) as Hnone.
      { apply lookup_ge_None_2. lia. }
      eexists. split; [done|]. constructor; [|done]. simpl.
      by rewrite Hnone.
Qed.

(** X6.  Over an index that keeps the contract of the flat index, [search]
    with [k >= 1] and a query of the index's dimension succeeds on every
    manager a sequence of calls can leave, also one whose metadata fall
    short of its texts after a refused addition: it returns [min M k]
    results, each with the text stored under its label, the distance of
    its row, and the metadata stored under that label or, there being
    none, the empty mapping. *)
Theorem search_without_metadata (self : FAISSManager) (query : vector) (k : Z) :
  knn_contract → sound self → length query = d (_index self) → 0 < k →
  ∃ (results : list SearchResult) (labels : list nat),
    search self query k = Ok results
    ∧ length results = Nat.min (ntotal (_index self)) (Z.to_nat k)
    ∧ NoDup labels
    ∧ Forall2 (λ l r,
                 _texts self !! l = Some (text r)
                 ∧ metadata r = default ∅ (_metadatas self !! l)
                 ∧ dist_to (xb (_index self)) query l = Some (distance r))
              labels results.
Proof.
  intros Hknn Hs Hdim Hk. unfold search.
  destruct (Nat.eqb_spec (ntotal (_index self)) 0) as [Hz|Hnz].
  { exists [], []. rewrite Hz. split_and!; try done; constructor. }
  destruct (Hknn (xb (_index self)) query k Hk)
    as (labels & ds & pad & Hsearch & Hlen & Hpad & Hnd & Hd & _).
  { destruct Hs as (_ & _ & Hrows). by rewrite Hdim. }
  destruct (collect_results_sound self query labels ds pad (length pad) Hs Hd [])
    as (results & Hres & Hlab).
  simpl in Hres. unfold index_search. rewrite Hsearch.
  exists results, labels. split_and!; try done.
  rewrite <- (Forall2_length _ _ _ Hlab), Hlen. unfold ntotal. lia.
Qed.

(** X7.  What has been added can be found: over an index that keeps the
    contract of the flat index, after an addition of a non-empty list of
    embeddings that goes through on a manager whose counts agree, a search
    with [k >= 1] and [k] at least the number of stored entries returns,
    for every query of the index's dimension, as many results as there are
    stored entries, among them every text stored before and every text
    added. *)
Theorem added_texts_are_found (self : FAISSManager) (embeddings : list vector)
    (texts : list string) (metadatas : option (list metadata_dict))
    (query : vector) (k : Z) :
  knn_contract → consistent self → embeddings ≠ [] →
  (add_documents self embeddings texts metadatas).1 = Ok tt →
  let self' := (add_documents self embeddings texts metadatas).2 in
  length query = d (_index self) → 0 < k →
  (ntotal (_index self') ≤ Z.to_nat k)%nat →
  ∃ results,
    search self' query k = Ok results
    ∧ length results = ntotal (_index self')
    ∧ ∀ t, t ∈ _texts self ++ texts → t ∈ text <$> results.
Proof.
  intros Hknn Hc He Hok self' Hdim Hk Hall.
  pose proof (add_documents_ok_consistent self _ _ _ Hc Hok) as Hc'.
  fold self' in Hc'.
  assert (_texts self' = _texts self ++ texts ∧ d (_index self') = d (_index self))
    as [Htexts Hd'].
  { subst self'.
    destruct (add_documents_ok_inv self _ _ _ Hok)
      as [([?| ->] & ->)|(_ & _ & _ & _ & _ & ->)]; try done.
    by rewrite app_nil_r. }
  rewrite <- Htexts.
  destruct (decide (ntotal (_index self') = 0%nat)) as [Hz|Hnz].
  { exists []. rewrite search_empty by done. split_and!; try done.
    intros t Ht. destruct Hc' as (Hlen & _). rewrite Hz in Hlen.
    apply nil_length_inv in Hlen. rewrite Hlen in Ht. by apply elem_of_nil in Ht. }
  destruct (search_lawful self' query k Hknn Hc') as
      (labels & distances & indices & results
       & _ & _ & Hs & Hlab & Hlen & Hnd & _); [congruence|done|done|].
  exists results. split_and!; try done.
  { rewrite <- (Forall2_length _ _ _ Hlab), Hlen. lia. }
  intros t [l Hl]%list_elem_of_lookup_1.
  assert (l < ntotal (_index self'))%nat as Hlt.
  { destruct Hc' as (Ht' & _). rewrite <- Ht'. by eapply lookup_lt_Some. }
  assert (l ∈ labels) as [i Hi]%list_elem_of_lookup_1.
  { apply (labels_cover labels (ntotal (_index self'))); try done; [|lia].
    apply Forall_forall. intros l' [j Hj]%list_elem_of_lookup_1.
    destruct (Forall2_lookup_l _ _ _ _ _ Hlab Hj) as (r' & _ & Hr').
    by eapply entry_at_lt. }
  destruct (Forall2_lookup_l _ _ _ _ _ Hlab Hi) as (r & Hr & Hentry).
  apply list_elem_of_fmap. exists r. split; [|by eapply list_elem_of_lookup_2].
  unfold entry_at in Hentry. rewrite Hl in Hentry. simpl in Hentry.
  destruct (_metadatas self' !! l); [|done]. simpl in Hentry.
  destruct (xb (_index self') !! l); [|done]. by injection Hentry as <-.
Qed.

End SearchMore.

(** ** The request handler, continued *)

Section HandlerMore.
Context `{FI : FlatIndex} `{CO : !Collaborators}.

Lemma authenticate_ok_inv (auth_header : option string) (w : World) :
  authenticate auth_header w = (Ok tt, w) → well_authorized auth_header.
Proof.
  intros Hok. destruct (header_kinds auth_header) as [?|Hbad]; [done|].
  destruct (authenticate_rejects _ w Hbad) as [detail Hr]. congruence.
Qed.

(** X8.  The bearer check lets a header through exactly when it is a
    scheme that reads [bearer] once lowered, one space, and the configured
    secret, the secret holding no space; every other header is answered
    401.  A secret that holds a space locks every request out. *)
Theorem accepted_headers (auth_header : option string) (w : World) :
  (authenticate auth_header w = (Ok tt, w)
   ↔ ∃ scheme,
       auth_header = Some (scheme +:+ " " +:+ REQUIRED_AUTH_TOKEN)
       ∧ Py.lower scheme = "bearer" ∧ no_space REQUIRED_AUTH_TOKEN)
  ∧ (authenticate auth_header w = (Ok tt, w)
     ∨ ∃ detail,
         authenticate auth_header w
         = (Raise (HTTPException HTTP_401_UNAUTHORIZED detail), w))
  ∧ (¬ no_space REQUIRED_AUTH_TOKEN → authenticate auth_header w ≠ (Ok tt, w)).
Proof.
  assert (authenticate auth_header w = (Ok tt, w) →
          ∃ scheme,
            auth_header = Some (scheme +:+ " " +:+ REQUIRED_AUTH_TOKEN)
            ∧ Py.lower scheme = "bearer" ∧ no_space REQUIRED_AUTH_TOKEN) as Hinv.
  { intros (header & token_type & -> & Hsplit & Hlower)%authenticate_ok_inv.
    destruct (join_split " " header) as (Hjoin & Hfields & _).
    rewrite Hsplit in Hjoin, Hfields. cbn [Py.join] in Hjoin.
    apply Forall_cons_1 in Hfields as [_ [Hsecret _]%Forall_cons_1].
    exists token_type. by rewrite Hjoin. }
  split_and!.
  - split; [done|]. intros (scheme & -> & Hs & Hsecret).
    by apply authenticate_accepts, literal_header_well_authorized.
  - destruct (header_kinds auth_header) as [Hgood|Hbad].
    + left. by apply authenticate_accepts.
    + right. by apply authenticate_rejects.
  - intros Hspace (scheme & _ & _ & ?)%Hinv. done.
Qed.

(** X9.  A response with answers means that every check has passed: the
    header was the bearer scheme with the secret, the document had text
    that is not blank and was split into chunks, the indexing of these
    chunks into the reset index went through, there is one answer per
    question, and each answer is the outcome of the unit of its question
    on the index the request leaves behind. *)
Theorem ok_response (auth_header : option string) (payload : RunRequest)
    (w w' : World) (response : RunResponse) :
  run_hackrx_submission auth_header payload w = (Ok response, w') →
  well_authorized auth_header
  ∧ ∃ document_text,
      extract_text_from_document (documents payload) = Some document_text
      ∧ ¬ whitespace_only document_text
      ∧ chunks_of document_text ≠ []
      ∧ indexed (faiss_manager w) (chunks_of document_text)
        = (Ok tt, faiss_manager w')
      ∧ length (answers response) = length (questions payload)
      ∧ Forall2 (λ question answer,
                   unit_outcome (faiss_manager w') question = Ok answer)
                (questions payload) (answers response).
Proof.
  intros Hrun.
  destruct (header_kinds auth_header) as [Hgood|Hbad].
  2:{ destruct (authenticate_rejects _ w Hbad) as [detail Hr].
      rewrite (run_rejected _ _ _ _ Hr) in Hrun. done. }
  split; [done|].
  rewrite (run_accepted _ _ _ (authenticate_accepts _ w Hgood)), after_auth_eq
    in Hrun.
  destruct (ingest_cases (documents payload) w)
    as [(_ & Hi)|[(t & _ & _ & _ & Hi)|(t & Hx & Hnb & Hchunks & Hi)]];
    rewrite Hi in Hrun; [done|done|].
  destruct (indexed (faiss_manager w) (chunks_of t)) as [[[]|e] self1] eqn:Hidx;
    simpl in Hrun; [|done].
  match type of Hrun with context [answer_questions _ ?w1] =>
    destruct (answer_questions_spec (questions payload) w1)
      as (evs & Hw & _ & Hiff & _);
    destruct (answer_questions (questions payload) w1)
      as [[final_answers|e] w2] eqn:Hans end; [|done].
  injection Hrun as <- <-. simpl in Hw. subst w2. simpl in Hiff.
  exists t. split_and!; try done.
  - symmetry. eapply Forall2_length. by apply Hiff.
  - by apply Hiff.
Qed.

Lemma add_documents_none (self : FAISSManager) (embeddings : list vector)
    (texts : list string) :
  add_documents self embeddings texts None =
  if bool_decide (embeddings = [] ∨ texts = []) then (Ok tt, self)
  else if negb (length embeddings =? length texts)%nat then
    (Raise (ValueError "Number of embeddings and texts must match."), self)
  else if forallb (λ v, (length v =? d (_index self))%nat) embeddings then
    (Ok tt,
     {| _index := {| d := d (_index self); xb := xb (_index self) ++ embeddings |};
        _texts := _texts self ++ texts;
        _metadatas := _metadatas self ++ ((λ _, ∅) <$> texts) |})
  else (Raise (LibraryError "embedding dimension does not match the index"), self).
Proof.
  unfold add_documents, index_add.
  destruct (bool_decide _); [done|].
  destruct (negb _); [done|]. by destruct (forallb _ embeddings).
Qed.

(** X10.  When the embedding model returns one embedding per chunk, each of
    the index's dimension, the ingestion of a document with text and chunks
    goes through and leaves in the index exactly the chunks of this
    document, in order, each with its embedding and an empty metadata
    mapping; nothing of what the index held before is left. *)
Theorem ingest_populates (document_url document_text : string) (w : World) :
  extract_text_from_document document_url = Some document_text →
  ¬ whitespace_only document_text →
  chunks_of document_text ≠ [] →
  let text_chunks := chunks_of document_text in
  length (get_embeddings text_chunks) = length text_chunks →
  Forall (λ v, length v = d (_index (faiss_manager w))) (get_embeddings text_chunks) →
  (ingest document_url w).1 = Ok tt
  ∧ faiss_manager (ingest document_url w).2
    = {| _index := {| d := d (_index (faiss_manager w));
                      xb := get_embeddings text_chunks |};
         _texts := text_chunks;
         _metadatas := (λ _, ∅) <$> text_chunks |}
  ∧ consistent (faiss_manager (ingest document_url w).2).
Proof.
  intros Hx Hnb Hchunks text_chunks Hlen Hdim. subst text_chunks.
  set (text_chunks := chunks_of document_text) in *.
  destruct (ingest_cases document_url w)
    as [([Hn|(t & Hx' & Hws)] & _)|[(t & Hx' & _ & Hc & _)|(t & Hx' & _ & _ & ->)]];
    rewrite Hx in *; simplify_eq.
  fold text_chunks. unfold indexed. rewrite add_documents_none.
  destruct (bool_decide_reflect (get_embeddings text_chunks = [] ∨ text_chunks = []))
    as [[He|Ht]|_];
    [rewrite He in Hlen; symmetry in Hlen; by apply nil_length_inv in Hlen|done|].
  rewrite Hlen, Nat.eqb_refl. cbn [negb].
  apply dimension_check in Hdim. cbn [reset_index index_reset _index d].
  rewrite Hdim. cbn. split_and!; try done.
  unfold consistent, ntotal. simpl. rewrite length_fmap.
  split_and!; try done. by apply dimension_check.
Qed.

(** X11.  When the embedding model does not return one embedding of the
    index's dimension per chunk, the ingestion leaves the index empty:
    the reset has been done and nothing is added, so that every search
    returns the empty list and the document held before is gone.  It does
    so without an error when the model returns no embedding at all, and
    with an internal server error otherwise. *)
Theorem failed_indexing_empties (document_url document_text : string) (w : World) :
  extract_text_from_document document_url = Some document_text →
  ¬ whitespace_only document_text →
  chunks_of document_text ≠ [] →
  let text_chunks := chunks_of document_text in
  ¬ (length (get_embeddings text_chunks) = length text_chunks
     ∧ Forall (λ v, length v = d (_index (faiss_manager w)))
              (get_embeddings text_chunks)) →
  faiss_manager (ingest document_url w).2 = reset_index (faiss_manager w)
  ∧ (∀ query k, search (faiss_manager (ingest document_url w).2) query k = Ok [])
  ∧ (get_embeddings text_chunks = [] → (ingest document_url w).1 = Ok tt)
  ∧ (get_embeddings text_chunks ≠ [] →
     is_raise (ingest document_url w).1
     ∧ response_status (ingest document_url w).1 = HTTP_500_INTERNAL_SERVER_ERROR).
Proof.
  intros Hx Hnb Hchunks text_chunks Hbad. subst text_chunks.
  set (text_chunks := chunks_of document_text) in *.
  destruct (ingest_cases document_url w)
    as [([Hn|(t & Hx' & Hws)] & _)|[(t & Hx' & _ & Hc & _)|(t & Hx' & _ & _ & ->)]];
    rewrite Hx in *; simplify_eq.
  fold text_chunks. unfold indexed. rewrite add_documents_none.
  cbn [fst snd faiss_manager].
  destruct (bool_decide_reflect (get_embeddings text_chunks = [] ∨ text_chunks = []))
    as [[He|Ht]|Hne]; [|done|].
  { by split_and!. }
  destruct (Nat.eqb_spec (length (get_embeddings text_chunks)) (length text_chunks))
    as [Hlen|Hlen]; cbn [negb].
  2:{ split_and!; try done. intros He. destruct Hne. by left. }
  destruct (forallb _ (get_embeddings text_chunks)) eqn:Hdim.
  { destruct Hbad. split; [done|]. by apply dimension_check in Hdim. }
  split_and!; try done. intros He. destruct Hne. by left.
Qed.

(** X12.  On an index that holds at least one entry the fallback answer is
    out of reach: over an index that keeps the contract of the flat index,
    when the embedding model returns an embedding of the index's dimension
    for the question, the retrieval yields [min M 10] contexts, all of them
    stored texts, and the unit of the question is the call of the
    generator on these contexts. *)
Theorem populated_index_always_generates (self : FAISSManager) (question : string)
    (query_embedding_single : vector) (others : list vector) :
  knn_contract → consistent self → ntotal (_index self) ≠ 0%nat →
  get_embeddings [question] = query_embedding_single :: others →
  length query_embedding_single = d (_index self) →
  ∃ contexts,
    retrieve self question = Ok contexts
    ∧ length contexts = Nat.min (ntotal (_index self)) 10
    ∧ contexts ≠ []
    ∧ contexts ⊆ _texts self
    ∧ unit_outcome self question = generate_answer question contexts.
Proof.
  intros Hknn Hc Hnz Hemb Hdim.
  destruct (search_lawful self query_embedding_single TOP_K_RETRIEVAL Hknn Hc Hdim)
    as (labels & distances & indices & results
        & _ & _ & Hs & Hlab & Hlen & _); [done|done|].
  assert (length results = Nat.min (ntotal (_index self)) 10) as Hcount.
  { rewrite <- (Forall2_length _ _ _ Hlab), Hlen. unfold TOP_K_RETRIEVAL. lia. }
  exists (text <$> results). unfold unit_outcome, retrieve. rewrite Hemb, Hs.
  assert (text <$> results ≠ []) as Hne.
  { intros Hnil%(f_equal length). rewrite length_fmap in Hnil.
    simpl in Hnil. lia. }
  split_and!; try done.
  - by rewrite length_fmap.
  - intros t (r & -> & Hr)%list_elem_of_fmap.
    apply search_stored in Hs. rewrite Forall_forall in Hs. by apply Hs.
  - destruct (text <$> results); done.
Qed.

(** X13.  A request, whatever its outcome, leaves the dimension of the
    index as it was and a manager whose counts agree: the handler adds
    chunks without metadata to an index it has just reset, which cannot
    leave texts without metadata behind. *)
Theorem request_keeps_consistency (auth_header : option string)
    (payload : RunRequest) (w : World) :
  consistent (faiss_manager w) →
  consistent (faiss_manager (run_hackrx_submission auth_header payload w).2)
  ∧ d (_index (faiss_manager (run_hackrx_submission auth_header payload w).2))
    = d (_index (faiss_manager w)).
Proof.
  intros Hc.
  destruct (header_kinds auth_header) as [Hgood|Hbad].
  2:{ destruct (authenticate_rejects _ w Hbad) as [detail Hr].
      by rewrite (run_rejected _ _ _ _ Hr). }
  rewrite (run_accepted _ _ _ (authenticate_accepts _ w Hgood)), after_auth_eq.
  assert (consistent (faiss_manager (ingest (documents payload) w).2)
          ∧ d (_index (faiss_manager (ingest (documents payload) w).2))
            = d (_index (faiss_manager w))) as Hingest.
  { destruct (ingest_cases (documents payload) w)
      as [(_ & ->)|[(t & _ & _ & _ & ->)|(t & _ & _ & _ & ->)]]; try done.
    cbn [snd faiss_manager]. unfold indexed. rewrite add_documents_none.
    destruct (bool_decide _); [by split; [apply consistent_reset|]|].
    destruct (Nat.eqb_spec (length (get_embeddings (chunks_of t)))
                (length (chunks_of t))) as [Hlen|_]; cbn [negb];
      [|by split; [apply consistent_reset|]].
    destruct (forallb _ _) eqn:Hdim; [|by split; [apply consistent_reset|]].
    split; [|done]. apply dimension_check in Hdim.
    unfold consistent, ntotal. simpl. rewrite length_fmap. by split_and!. }
  destruct (ingest (documents payload) w) as [[[]|e] w1]; [|done].
  destruct (answer_questions_spec (questions payload) w1) as (evs & Hw & _).
  destruct (answer_questions (questions payload) w1) as [[?|?] w2];
    simpl in *; by subst w2.
Qed.

End HandlerMore.

(** ** The handler over the document loader *)

Section LoaderHandler.
Context `{FI : FlatIndex} `{LB : !DocumentLoader.Libraries} (CO : Collaborators).

(** X3.  With the document loader as the extraction, a request that passes
    the bearer check for a document that cannot be fetched, or whose URL
    names none of the four extensions, is answered 400 after the one call
    of the loader, with the index untouched; and for every text the loader
    returns the handler goes on to the splitter: its own check for a
    blank text never fires. *)
Theorem unsupported_document_rejected (auth_header : option string)
    (payload : RunRequest) (w : World) :
  well_authorized (CO := with_loader CO) auth_header →
  (DocumentLoader.load_document_from_url (documents payload) = None
   ∨ DocumentLoader.get_document_type (documents payload) = "unknown" →
   run_hackrx_submission (CO := with_loader CO) auth_header payload w
   = (Raise BAD_DOCUMENT, called w [EvExtract (documents payload)])
   ∧ response_status
       (run_hackrx_submission (CO := with_loader CO) auth_header payload w).1
     = 400)
  ∧ (∀ document_text,
       DocumentLoader.extract_text_from_document (documents payload)
       = Some document_text →
       ∃ evs,
         calls (run_hackrx_submission (CO := with_loader CO)
                  auth_header payload w).2
         = calls w ++ EvExtract (documents payload) :: EvSplit document_text :: evs).
Proof.
  intros Hgood.
  rewrite (run_accepted (CO := with_loader CO) _ _ _
             (authenticate_accepts (CO := with_loader CO) _ w Hgood)),
    after_auth_eq.
  destruct (ingest_cases (CO := with_loader CO) (documents payload) w)
    as [([Hn|(t & Hx & Hws)] & Hi)|[(t & Hx & _ & _ & Hi)|(t & Hx & _ & _ & Hi)]];
    rewrite Hi; cbn [extract_text_from_document with_loader] in *.
  - split; [done|]. intros t Hx. congruence.
  - exfalso. destruct (extracted_text_stripped _ _ Hx) as [Hs Hne].
    by apply (stripped_not_blank t).
  - split.
    + intros [Hl|Hu]; exfalso; revert Hx;
        unfold DocumentLoader.extract_text_from_document;
        [by rewrite Hl|rewrite Hu].
      by destruct (DocumentLoader.load_document_from_url _).
    + intros t' Hx'. rewrite Hx in Hx'. injection Hx' as <-. by exists [].
  - split.
    + intros [Hl|Hu]; exfalso; revert Hx;
        unfold DocumentLoader.extract_text_from_document;
        [by rewrite Hl|rewrite Hu].
      by destruct (DocumentLoader.load_document_from_url _).
    + intros t' Hx'. rewrite Hx in Hx'. injection Hx' as <-.
      destruct (indexed _ _) as [[[]|e] self1]; cbn [fst snd].
      2:{ eexists. cbn [calls]. reflexivity. }
      match goal with |- context [answer_questions _ ?w1] =>
        destruct (answer_questions_spec (CO := with_loader CO)
                    (questions payload) w1) as (evs & Hw & _);
        destruct (answer_questions (questions payload) w1) as [[?|?] w2] end;
        simpl in Hw; subst w2; cbn [snd calls called];
        rewrite <- app_assoc; by eexists.
Qed.

End LoaderHandler.

(** ** The further properties at concrete inputs *)

Module MoreExamples.
Import Reference ReferenceFacts ReferenceLoader ReferenceMisfit.

Example pdf_anywhere_in_the_url :
  DocumentLoader.get_document_type "https://host/Policy.PDF?name=a.docx" = "pdf".
Proof. reflexivity. Qed.

Lemma extracted_text_is_clean_witness :
  DocumentLoader.extract_text_from_document (LB := libraries) "https://host/Policy.PDF"
  = Some "aa bbb c"
  ∧ (∃ document_content,
       DocumentLoader.load_document_from_url (LB := libraries)
         "https://host/Policy.PDF" = Some document_content)
  ∧ DocumentLoader.get_document_type "https://host/Policy.PDF" ≠ "unknown"
  ∧ "aa bbb c" ≠ "" ∧ Py.strip "aa bbb c" = "aa bbb c"
  ∧ ¬ whitespace_only "aa bbb c".
Proof.
  split; [reflexivity|].
  exact (extracted_text_is_clean (LB := libraries) "https://host/Policy.PDF"
           "aa bbb c" eq_refl).
Defined.

Lemma bearer_with_loader : well_authorized (CO := loading) bearer.
Proof. exists ("Bearer " +:+ DEFAULT_AUTH_TOKEN), "Bearer". by split_and!. Qed.

Lemma unsupported_document_rejected_witness :
  let payload := {| documents := "https://host/notes.txt"; questions := ["dd"] |} in
  well_authorized (CO := loading) bearer
  ∧ DocumentLoader.get_document_type (documents payload) = "unknown"
  ∧ run_hackrx_submission (FI := StableIndex) (CO := loading) bearer payload fresh
    = (Raise BAD_DOCUMENT, called fresh [EvExtract "https://host/notes.txt"]).
Proof.
  intros payload. split; [exact bearer_with_loader|]. split; [reflexivity|].
  exact (proj1 (proj1 (unsupported_document_rejected (FI := StableIndex)
                         (LB := libraries) demo bearer payload fresh
                         bearer_with_loader)
                  (or_intror eq_refl))).
Defined.

Lemma add_documents_appends_witness :
  consistent library ∧ [[5]] ≠ ([] : list (list Z)) ∧ ["eeeee"] ≠ []
  ∧ (add_documents library [[5]] ["eeeee"] None).1 = Ok tt
  ∧ ntotal (_index (add_documents library [[5]] ["eeeee"] None).2) = 4%nat
  ∧ entry_at (add_documents library [[5]] ["eeeee"] None).2 [2] 3
    = Some {| text := "eeeee"; metadata := ∅; distance := 9 |}
  ∧ entry_at (add_documents library [[5]] ["eeeee"] None).2 [2] 0
    = entry_at library [2] 0.
Proof.
  assert (consistent library) as Hc by (repeat split; repeat constructor).
  split; [exact Hc|]. split; [discriminate|]. split; [discriminate|].
  split; [reflexivity|].
  destruct (add_documents_appends (H := ZMetric) library [[5]] ["eeeee"] None Hc
              ltac:(discriminate) ltac:(discriminate) eq_refl)
    as (Hn & Hold & Hnew).
  split; [exact Hn|]. split.
  - destruct (Hnew [2] 0%nat "eeeee" eq_refl) as (row & md & Hrow & Hmd & Hentry).
    injection Hrow as <-. injection Hmd as <-. exact Hentry.
  - apply Hold. vm_compute. lia.
Defined.

Lemma sound_lagging : sound lagging.
Proof. split_and!; [reflexivity|vm_compute; lia|repeat constructor]. Qed.

Lemma search_without_metadata_witness :
  knn_contract (FI := StableIndex) ∧ sound lagging
  ∧ length [1] = d (_index lagging) ∧ 0 < 3
  ∧ length (_metadatas lagging) = 0%nat
  ∧ ∃ (results : list SearchResult) (labels : list nat),
      search (FI := StableIndex) lagging [1] 3 = Ok results
      ∧ length results = Nat.min (ntotal (_index lagging)) (Z.to_nat 3)
      ∧ NoDup labels
      ∧ Forall2 (λ l r,
                   _texts lagging !! l = Some (text r)
                   ∧ metadata r = default ∅ (_metadatas lagging !! l)
                   ∧ dist_to (xb (_index lagging)) [1] l = Some (distance r))
                labels results.
Proof.
  split; [exact stable_index_lawful|]. split; [exact sound_lagging|].
  split; [reflexivity|]. split; [lia|]. split; [reflexivity|].
  apply (search_without_metadata (FI := StableIndex) lagging [1] 3
           stable_index_lawful sound_lagging); [reflexivity|lia].
Defined.

Example search_lagging :
  search (FI := StableIndex) lagging [1] 3
  = Ok [ {| text := "a"; metadata := ∅; distance := 0 |} ].
Proof. reflexivity. Qed.

Lemma added_texts_are_found_witness :
  knn_contract (FI := StableIndex) ∧ consistent library
  ∧ [[5]] ≠ ([] : list (list Z))
  ∧ (add_documents library [[5]] ["eeeee"] None).1 = Ok tt
  ∧ length [2] = d (_index library) ∧ 0 < 10
  ∧ (ntotal (_index (add_documents library [[5%Z]] ["eeeee"] None).2)
     ≤ Z.to_nat 10)%nat
  ∧ ∃ results,
      search (FI := StableIndex) (add_documents library [[5]] ["eeeee"] None).2
        [2] 10 = Ok results
      ∧ length results
        = ntotal (_index (add_documents library [[5]] ["eeeee"] None).2)
      ∧ ∀ t, t ∈ _texts library ++ ["eeeee"] → t ∈ text <$> results.
Proof.
  assert (consistent library) as Hc by (repeat split; repeat constructor).
  assert (ntotal (_index (add_documents library [[5%Z]] ["eeeee"] None).2)
          ≤ Z.to_nat 10)%nat as Hk by (vm_compute; lia).
  split; [exact stable_index_lawful|]. split; [exact Hc|].
  split; [discriminate|]. split; [reflexivity|]. split; [reflexivity|].
  split; [lia|]. split; [exact Hk|].
  apply (added_texts_are_found (FI := StableIndex) library [[5]] ["eeeee"] None
           [2] 10 stable_index_lawful Hc ltac:(discriminate) eq_refl eq_refl
           ltac:(lia) Hk).
Defined.


Lemma ok_response_witness :
  let payload := {| documents := "x:aa bbb c"; questions := ["dd"; "e"] |} in
  let run := run_hackrx_submission (FI := StableIndex) (CO := demo)
               bearer payload fresh in
  run.1 = Ok {| answers := ["answer:dd"; "answer:e"] |}
  ∧ well_authorized (CO := demo) bearer
  ∧ ∃ document_text,
      extract_text_from_document (Collaborators := demo) (documents payload)
      = Some document_text
      ∧ ¬ whitespace_only document_text
      ∧ chunks_of (CO := demo) document_text ≠ []
      ∧ indexed (CO := demo) (faiss_manager fresh)
          (chunks_of (CO := demo) document_text)
        = (Ok tt, faiss_manager run.2)
      ∧ length ["answer:dd"; "answer:e"] = length (questions payload)
      ∧ Forall2 (λ question answer,
                   unit_outcome (FI := StableIndex) (CO := demo)
                     (faiss_manager run.2) question = Ok answer)
                (questions payload) ["answer:dd"; "answer:e"].
Proof.
  intros payload run. split; [reflexivity|].
  exact (ok_response (FI := StableIndex) (CO := demo) bearer payload fresh run.2
           {| answers := ["answer:dd"; "answer:e"] |} eq_refl).
Defined.

Lemma document_not_blank : ¬ whitespace_only "aa bbb c".
Proof.
  intros Hws. unfold whitespace_only in Hws. cbn in Hws.
  apply Forall_cons_1 in Hws as [Hc _]. vm_compute in Hc. discriminate Hc.
Qed.

Lemma document_has_chunks : chunks_of (CO := demo) "aa bbb c" ≠ [].
Proof. intros Hn. vm_compute in Hn. discriminate Hn. Qed.

Lemma ingest_populates_witness :
  extract_text_from_document (Collaborators := demo) "x:aa bbb c" = Some "aa bbb c"
  ∧ ¬ whitespace_only "aa bbb c"
  ∧ chunks_of (CO := demo) "aa bbb c" ≠ []
  ∧ (ingest (CO := demo) "x:aa bbb c" fresh).1 = Ok tt
  ∧ faiss_manager (ingest (CO := demo) "x:aa bbb c" fresh).2
    = {| _index := {| d := 1; xb := [[2]; [3]; [1]] |};
         _texts := ["aa"; "bbb"; "c"];
         _metadatas := [∅; ∅; ∅] |}
  ∧ consistent (faiss_manager (ingest (CO := demo) "x:aa bbb c" fresh).2).
Proof.
  split; [reflexivity|]. split; [exact document_not_blank|].
  split; [exact document_has_chunks|].
  exact (ingest_populates (CO := demo) "x:aa bbb c" "aa bbb c"
           fresh eq_refl document_not_blank document_has_chunks eq_refl
           ltac:(repeat constructor)).
Defined.

Lemma failed_indexing_empties_witness :
  let w := (ingest (CO := demo) "x:aa bbb c" fresh).2 in
  _texts (faiss_manager w) = ["aa"; "bbb"; "c"]
  ∧ extract_text_from_document (Collaborators := two_dimensional) "y:dddd ee"
    = Some "dddd ee"
  ∧ faiss_manager (ingest (CO := two_dimensional) "y:dddd ee" w).2
    = reset_index (faiss_manager w)
  ∧ (∀ query k,
       search (FI := StableIndex)
         (faiss_manager (ingest (CO := two_dimensional) "y:dddd ee" w).2) query k
       = Ok [])
  ∧ is_raise (ingest (CO := two_dimensional) "y:dddd ee" w).1
  ∧ response_status (ingest (CO := two_dimensional) "y:dddd ee" w).1 = 500.
Proof.
  intros w. split; [reflexivity|]. split; [reflexivity|].
  assert (¬ whitespace_only "dddd ee") as Hnb.
  { intros Hws. unfold whitespace_only in Hws. cbn in Hws.
    apply Forall_cons_1 in Hws as [Hc _]. vm_compute in Hc. discriminate Hc. }
  assert (chunks_of (CO := two_dimensional) "dddd ee" ≠ []) as Hchunks.
  { intros Hn. vm_compute in Hn. discriminate Hn. }
  destruct (failed_indexing_empties (FI := StableIndex) (CO := two_dimensional)
              "y:dddd ee" "dddd ee" w eq_refl Hnb Hchunks)
    as (Hreset & Hsearch & _ & Hraise).
  { intros [_ Hdim]. apply Forall_cons_1 in Hdim as [Hd _].
    vm_compute in Hd. discriminate Hd. }
  split; [exact Hreset|]. split; [exact Hsearch|].
  apply Hraise. intros Hn. vm_compute in Hn. discriminate Hn.
Defined.

Lemma populated_index_always_generates_witness :
  knn_contract (FI := StableIndex) ∧ consistent library
  ∧ ntotal (_index library) ≠ 0%nat
  ∧ get_embeddings (Collaborators := demo) ["What is the capital of Mars?"]
    = [[28]]
  ∧ ∃ contexts,
      retrieve (FI := StableIndex) (CO := demo) library
        "What is the capital of Mars?" = Ok contexts
      ∧ length contexts = Nat.min (ntotal (_index library)) 10
      ∧ contexts ≠ []
      ∧ contexts ⊆ _texts library
      ∧ unit_outcome (FI := StableIndex) (CO := demo) library
          "What is the capital of Mars?"
        = generate_answer (Collaborators := demo)
            "What is the capital of Mars?" contexts.
Proof.
  assert (consistent library) as Hc by (repeat split; repeat constructor).
  split; [exact stable_index_lawful|]. split; [exact Hc|].
  split; [discriminate|]. split; [reflexivity|].
  exact (populated_index_always_generates (FI := StableIndex) (CO := demo)
           library "What is the capital of Mars?" [28] []
           stable_index_lawful Hc ltac:(discriminate) eq_refl eq_refl).
Defined.

Example question_without_relevant_chunk :
  unit_outcome (FI := StableIndex) (CO := demo) library
    "What is the capital of Mars?"
  = Ok "answer:What is the capital of Mars?".
Proof. reflexivity. Qed.

Lemma request_keeps_consistency_witness :
  let payload := {| documents := "x:aa bbb c"; questions := ["dd"; "boom"] |} in
  consistent (faiss_manager fresh)
  ∧ consistent
      (faiss_manager
         (run_hackrx_submission (FI := StableIndex) (CO := demo)
            bearer payload fresh).2)
  ∧ d (_index (faiss_manager
                 (run_hackrx_submission (FI := StableIndex) (CO := demo)
                    bearer payload fresh).2))
    = d (_index (faiss_manager fresh)).
Proof.
  intros payload.
  assert (consistent (faiss_manager fresh)) as Hc by (repeat split; constructor).
  split; [exact Hc|].
  exact (request_keeps_consistency (FI := StableIndex) (CO := demo)
           bearer payload fresh Hc).
Defined.

Example second_construction_is_ignored :
  foldl step None
    [CallNew 1; CallAdd [[2]] ["aa"] None; CallNew 384;
     CallAdd [[1; 2]] ["two"] None]
  = Some {| _index := {| d := 1; xb := [[2]] |};
            _texts := ["aa"]; _metadatas := [∅] |}.
Proof. reflexivity. Qed.

Example secret_with_a_space_is_never_matched :
  Py.split " " "Bearer my secret" = ["Bearer"; "my"; "secret"].
Proof. reflexivity. Qed.

End MoreExamples.
